(** * bam_to_bigwig: the pipeline controller, embedded and verified

    A shallow embedding of [bam_to_bigwig.py] (Python 2): the signal
    table built at module load, the yes/no prompt, the two stage
    wrappers around the external tools, the index accessor, the
    size-table writer, [main] and the command-line script.

    Python values that the code branches on are kept as they are
    ([pyval] with its truth value), exceptions are a result type, and the
    process state (file system, standard input, what was printed and
    logged, which subprocesses ran, open alignment handles, the module
    global [unix_signals]) is threaded through a state-and-exception
    monad.  What lies outside the repository (the external tools, pysam,
    the temporary-name generator, the working directory) is a record of
    oracles, [env]. *)

From Stdlib Require Import ZArith String Ascii List DecimalString Lia.
From stdpp Require Import gmap strings list fin_maps.
Import ListNotations.
Open Scope string_scope.
Open Scope list_scope.
Open Scope Z_scope.
Set Warnings "-register-all".

(** ** Python strings *)

Definition TAB : string := String "009"%char EmptyString.
Definition NL : string := String "010"%char EmptyString.
Definition DQ : string := String "034"%char EmptyString.

Module pystr.

(** [s.split(sep)] for a one-character separator: never the empty list. *)
Fixpoint split (sep : ascii) (s : string) : list string :=
  match s with
  | EmptyString => [EmptyString]
  | String c s' =>
      if Ascii.eqb c sep then EmptyString :: split sep s'
      else match split sep s' with
           | w :: ws => String c w :: ws
           | [] => [String c EmptyString]
           end
  end.

(** [sep.join(l)] *)
Fixpoint join (sep : string) (l : list string) : string :=
  match l with
  | [] => EmptyString
  | [x] => x
  | x :: rest => x +:+ sep +:+ join sep rest
  end.

Definition lower_char (c : ascii) : ascii :=
  let n := nat_of_ascii c in
  if ((65 <=? n) && (n <=? 90))%nat then ascii_of_nat (n + 32) else c.

(** [s.lower()] on a byte string in the C locale. *)
Fixpoint lower (s : string) : string :=
  match s with
  | EmptyString => EmptyString
  | String c s' => String (lower_char c) (lower s')
  end.

Fixpoint rev_onto (s acc : string) : string :=
  match s with
  | EmptyString => acc
  | String c s' => rev_onto s' (String c acc)
  end.

Definition rev (s : string) : string := rev_onto s EmptyString.

Fixpoint lstrip_char (x : ascii) (s : string) : string :=
  match s with
  | EmptyString => EmptyString
  | String c s' => if Ascii.eqb c x then lstrip_char x s' else s
  end.

(** [s.rstrip(x)] for a one-character [x]. *)
Definition rstrip_char (x : ascii) (s : string) : string :=
  rev (lstrip_char x (rev s)).

Definition is_space (c : ascii) : bool :=
  let n := nat_of_ascii c in ((n =? 32) || ((9 <=? n) && (n <=? 13)))%nat.

Fixpoint lstrip (s : string) : string :=
  match s with
  | EmptyString => EmptyString
  | String c s' => if is_space c then lstrip s' else s
  end.

(** [s.strip()] *)
Definition strip (s : string) : string := rev (lstrip (rev (lstrip s))).

(** [s.startswith(p)] *)
Definition startswith (p s : string) : bool := String.prefix p s.

(** [s.endswith(p)] *)
Definition endswith (p s : string) : bool := String.prefix (rev p) (rev s).

(** [s.rfind(c)] for a one-character [c]: the last index, or [-1]. *)
Fixpoint rfind_from (c : ascii) (s : string) (i : Z) (last : Z) : Z :=
  match s with
  | EmptyString => last
  | String d s' => rfind_from c s' (i + 1) (if Ascii.eqb d c then i else last)
  end.

Definition rfind (c : ascii) (s : string) : Z := rfind_from c s 0 (-1).

(** [s[:i]] and [s[i:]] for [0 <= i]. *)
Definition take (i : Z) (s : string) : string :=
  String.substring 0 (Z.to_nat i) s.

Definition drop (i : Z) (s : string) : string :=
  String.substring (Z.to_nat i) (String.length s - Z.to_nat i) s.

(** [c * n]: a character repeated. *)
Fixpoint repeat (c : ascii) (n : nat) : string :=
  match n with
  | O => EmptyString
  | S n' => String c (repeat c n')
  end.

(** ["%d" % z] and ["%s" % z] for an integer. *)
Definition of_Z (z : Z) : string := NilZero.string_of_int (Z.to_int z).

(** [int(s)]: surrounding blanks are dropped, one sign is allowed, then
    decimal digits only; [None] stands for [ValueError]. *)
Definition to_Z (s : string) : option Z :=
  match strip s with
  | String "+" d =>
      match d with
      | String "-" _ => None
      | _ => Z.of_int <$> NilZero.int_of_string d
      end
  | t => Z.of_int <$> NilZero.int_of_string t
  end.

End pystr.

(** ** [os.path] on POSIX *)

Module posixpath.

Definition sep : ascii := "/"%char.
Definition extsep : ascii := "."%char.

(** The [while] loop of [genericpath._splitext]: is there a character
    other than a dot in [p[i:i+n]]? *)
Fixpoint has_non_dot (p : string) (i : nat) (n : nat) : bool :=
  match n with
  | O => false
  | S n' =>
      match String.get i p with
      | Some c => if Ascii.eqb c extsep then has_non_dot p (S i) n' else true
      | None => false
      end
  end.

(** [os.path.splitext(p)]: the extension starts at the last dot of the
    last component; leading dots of that component do not count. *)
Definition splitext (p : string) : string * string :=
  let sepIndex := pystr.rfind sep p in
  let dotIndex := pystr.rfind extsep p in
  if (sepIndex <? dotIndex)
     && has_non_dot p (Z.to_nat (sepIndex + 1)) (Z.to_nat (dotIndex - (sepIndex + 1)))
  then (pystr.take dotIndex p, pystr.drop dotIndex p)
  else (p, EmptyString).

(** [os.path.dirname(p)] *)
Definition dirname (p : string) : string :=
  let i := pystr.rfind sep p + 1 in
  let head := pystr.take i p in
  if negb (String.eqb head EmptyString)
     && negb (String.eqb head (pystr.repeat sep (String.length head)))
  then pystr.rstrip_char sep head
  else head.

(** [os.path.isabs(p)] *)
Definition isabs (p : string) : bool := pystr.startswith "/" p.

(** [os.path.join(a, b)] *)
Definition join (a b : string) : string :=
  if pystr.startswith "/" b then b
  else if String.eqb a EmptyString || pystr.endswith "/" a then a +:+ b
  else a +:+ "/" +:+ b.

(** The loop of [normpath]; [new_comps] is kept with its last element
    first. *)
Definition normpath_step (initial_slashes : nat) (new_comps : list string)
    (comp : string) : list string :=
  if String.eqb comp EmptyString || String.eqb comp "." then new_comps
  else if negb (String.eqb comp "..")
          || (Nat.eqb initial_slashes 0 && bool_decide (new_comps = []))
          || match new_comps with
             | last :: _ => String.eqb last ".."
             | [] => false
             end
       then comp :: new_comps
       else match new_comps with
            | _ :: popped => popped
            | [] => []
            end.

(** [os.path.normpath(path)] *)
Definition normpath (path : string) : string :=
  if String.eqb path EmptyString then "."
  else
    let initial_slashes : nat :=
      if pystr.startswith "/" path then
        if pystr.startswith "//" path && negb (pystr.startswith "///" path)
        then 2%nat else 1%nat
      else 0%nat in
    let comps := pystr.split sep path in
    let new_comps := fold_left (normpath_step initial_slashes) comps [] in
    let path' := pystr.repeat sep initial_slashes
                 +:+ pystr.join "/" (List.rev new_comps) in
    if String.eqb path' EmptyString then "." else path'.

(** [os.path.abspath(path)], given [os.getcwd()]. *)
Definition abspath (cwd path : string) : string :=
  if isabs path then normpath path else normpath (join cwd path).

End posixpath.

(** ** Python values, exceptions and the process state *)

(** The values a stage wrapper returns: [False], or the pair
    [(rc == 0, rc)]. *)
Inductive pyval :=
| PyBool (b : bool)
| PyInt (z : Z)
| PyTuple (items : list pyval).

(** Python's truth value, as [if x] and [not x] compute it: a number is
    true when it is not zero, a tuple when it is not empty. *)
Definition truthy (v : pyval) : bool :=
  match v with
  | PyBool b => b
  | PyInt z => negb (z =? 0)
  | PyTuple [] => false
  | PyTuple (_ :: _) => true
  end.

Inductive exn :=
| SystemExit (code : option Z)
| KeyboardInterrupt
| KeyError
| IndexError
| ValueError
| EOFError
| ImportError
| IOError (errno : Z)
| OSError (errno : Z).

Module errno.
Definition ENOENT : Z := 2.
Definition EBADF : Z := 9.
Definition EACCES : Z := 13.
Definition ENOTDIR : Z := 20.
Definition EISDIR : Z := 21.
End errno.

Inductive res (A : Type) :=
| Ret (a : A)
| Raise (e : exn).
Arguments Ret {A} a.
Arguments Raise {A} e.

(** A file-system entry, under its absolute path. *)
Inductive node :=
| File (writable : bool) (content : string)
| Dir (writable : bool) (size : Z).

Inductive level := CRITICAL | INFO.

(** What the process does that can be observed from outside, oldest
    first. *)
Inductive event :=
| Stdout (text : string)
| Stderr (text : string)
| Log (lvl : level) (msg : string)
| Spawn (cl : list string).

(** The alignment handle [pysam.Samfile] returns; reading either
    attribute may raise. *)
Record Samfile := {
  sam_path : string;
  references : res (list string);
  lengths : res (list Z)
}.

Record state := {
  fs : gmap string node;
  stdin : list string;
  events : list event;
  open_sam : list string;
  unix_signals : gmap Z (list string)
}.

(** The collaborators outside the repository. *)
Record env := {
  getcwd : string;
  (** [Popen(cl)] followed by [communicate()]: [None] when the
      executable cannot be started ([OSError]), else the return code and
      the file system the tool leaves behind. *)
  run_tool : list string -> gmap string node -> option (Z * gmap string node);
  (** [import pysam] succeeds *)
  pysam_importable : bool;
  (** [pysam.index(bam)] *)
  pysam_index : string -> gmap string node -> res unit * gmap string node;
  (** [pysam.Samfile(bam, "rb")] *)
  pysam_Samfile : string -> gmap string node -> res Samfile;
  (** the name [tempfile.NamedTemporaryFile] picks *)
  temp_name : gmap string node -> string
}.

Definition set_fs (f : gmap string node) (s : state) : state :=
  {| fs := f; stdin := stdin s; events := events s;
     open_sam := open_sam s; unix_signals := unix_signals s |}.

Definition set_stdin (l : list string) (s : state) : state :=
  {| fs := fs s; stdin := l; events := events s;
     open_sam := open_sam s; unix_signals := unix_signals s |}.

Definition set_events (ev : list event) (s : state) : state :=
  {| fs := fs s; stdin := stdin s; events := ev;
     open_sam := open_sam s; unix_signals := unix_signals s |}.

Definition set_open_sam (l : list string) (s : state) : state :=
  {| fs := fs s; stdin := stdin s; events := events s;
     open_sam := l; unix_signals := unix_signals s |}.

(** ** The monad: state, and a result or an exception *)

Definition M (A : Type) : Type := state -> res A * state.

Definition ret {A} (a : A) : M A := fun s => (Ret a, s).

Definition raise {A} (e : exn) : M A := fun s => (Raise e, s).

Definition bind {A B} (m : M A) (k : A -> M B) : M B :=
  fun s =>
    match m s with
    | (Ret a, s') => k a s'
    | (Raise e, s') => (Raise e, s')
    end.

Declare Scope py_scope.
Delimit Scope py_scope with py.
Notation "x <- m ;; k" := (bind m (fun x => k))
  (at level 100, m at next level, right associativity) : py_scope.
Notation "m ;; k" := (bind m (fun _ => k))
  (at level 100, right associativity) : py_scope.
Open Scope py_scope.

(** [try: m  except <the exceptions h accepts>: h e]; what [m] did before
    raising stays done. *)
Definition try_except {A} (m : M A) (h : exn -> option (M A)) : M A :=
  fun s =>
    match m s with
    | (Ret a, s') => (Ret a, s')
    | (Raise e, s') =>
        match h e with
        | Some k => k s'
        | None => (Raise e, s')
        end
    end.

(** [for x in l: body x] *)
Fixpoint for_each {A} (l : list A) (body : A -> M unit) : M unit :=
  match l with
  | [] => ret tt
  | x :: rest => body x ;; for_each rest body
  end.

(** [with cm as x: body x] for a [@contextmanager] generator that runs
    [enter], yields once outside any [try], and then runs [leave]: when
    the body raises, the exception is thrown into the generator at the
    [yield], nothing catches it there, and [leave] is not run. *)
Definition with_contextmanager {X A} (enter : M X) (leave : X -> M unit)
    (body : X -> M A) : M A :=
  x <- enter ;;
  a <- body x ;;
  leave x ;;
  ret a.

Definition get_state : M state := fun s => (Ret s, s).

Definition emit (e : event) : M unit :=
  fun s => (Ret tt, set_events (events s ++ [e])%list s).

(** [sys.stdout.write], [sys.stderr.write], [log.critical], [log.info] *)
Definition stdout_write (t : string) : M unit := emit (Stdout t).
Definition stderr_write (t : string) : M unit := emit (Stderr t).
Definition log_critical (msg : string) : M unit := emit (Log CRITICAL msg).
Definition log_info (msg : string) : M unit := emit (Log INFO msg).

(** [sys.exit(code)]; [sys.exit()] is [sys_exit None]. *)
Definition sys_exit {A} (code : option Z) : M A := raise (SystemExit code).

(** The status the interpreter hands to the operating system. *)
Definition exit_status {A} (r : res A) : Z :=
  match r with
  | Ret _ => 0
  | Raise (SystemExit None) => 0
  | Raise (SystemExit (Some n)) => n
  | Raise _ => 1
  end.

(** [d[k]] on a dictionary and [l[i]] on a list. *)
Definition dict_get {V} (d : gmap Z V) (k : Z) : M V :=
  match d !! k with
  | Some v => ret v
  | None => raise KeyError
  end.

Definition list_get {V} (l : list V) (i : nat) : M V :=
  match l !! i with
  | Some v => ret v
  | None => raise IndexError
  end.

(** ** Module load: the signal table *)

Module tsv_notation.
Notation "a \t b" := (a +:+ TAB +:+ b)
  (at level 60, right associativity, only parsing).
Notation "a \n b" := (a +:+ NL +:+ b)
  (at level 60, right associativity, only parsing).
End tsv_notation.

Section signal_table.
Import tsv_notation.

Definition unix_signals_tsv : string :=
  "1" \t "SIGHUP" \t "Exit" \t "Hangup" \n
  "2" \t "SIGINT" \t "Exit" \t "Interrupt" \n
  "3" \t "SIGQUIT" \t "Core" \t "Quit" \n
  "4" \t "SIGILL" \t "Core" \t "Illegal Instruction" \n
  "5" \t "SIGTRAP" \t "Core" \t "Trace/Breakpoint Trap" \n
  "6" \t "SIGABRT" \t "Core" \t "Abort" \n
  "7" \t "SIGEMT" \t "Core" \t "Emulation Trap" \n
  "8" \t "SIGFPE" \t "Core" \t "Arithmetic Exception" \n
  "9" \t "SIGKILL" \t "Exit" \t "Killed" \n
  "10" \t "SIGBUS" \t "Core" \t "Bus Error" \n
  "11" \t "SIGSEGV" \t "Core" \t "Segmentation Fault" \n
  "12" \t "SIGSYS" \t "Core" \t "Bad System Call" \n
  "13" \t "SIGPIPE" \t "Exit" \t "Broken Pipe" \n
  "14" \t "SIGALRM" \t "Exit" \t "Alarm Clock" \n
  "15" \t "SIGTERM" \t "Exit" \t "Terminated" \n
  "16" \t "SIGUSR1" \t "Exit" \t "User Signal 1" \n
  "17" \t "SIGUSR2" \t "Exit" \t "User Signal 2" \n
  "18" \t "SIGCHLD" \t "Ignore" \t "Child Status" \n
  "19" \t "SIGPWR" \t "Ignore" \t "Power Fail/Restart" \n
  "20" \t "SIGWINCH" \t "Ignore" \t "Window Size Change" \n
  "21" \t "SIGURG" \t "Ignore" \t "Urgent Socket Condition" \n
  "22" \t "SIGPOLL" \t "Ignore" \t "Socket I/O Possible" \n
  "23" \t "SIGSTOP" \t "Stop" \t "Stopped (signal)" \n
  "24" \t "SIGTSTP" \t "Stop" \t "Stopped (user)" \n
  "25" \t "SIGCONT" \t "Ignore" \t "Continued" \n
  "26" \t "SIGTTIN" \t "Stop" \t "Stopped (tty input)" \n
  "27" \t "SIGTTOU" \t "Stop" \t "Stopped (tty output)" \n
  "28" \t "SIGVTALRM" \t "Exit" \t "Virtual Timer Expired" \n
  "29" \t "SIGPROF" \t "Exit" \t "Profiling Timer Expired" \n
  "30" \t "SIGXCPU" \t "Core" \t "CPU time limit exceeded" \n
  "31" \t "SIGXFSZ" \t "Core" \t "File size limit exceeded" \n
  "32" \t "SIGWAITING" \t "Ignore" \t "All LWPs blocked" \n
  "33" \t "SIGLWP" \t "Ignore"
       \t "Virtual Interprocessor Interrupt for Threads Library" \n
  "34" \t "SIGAIO" \t "Ignore" \t "Asynchronous I/O".

End signal_table.

(** [dict(items)]: a later item replaces an earlier one with the same
    key. *)
Definition dict_of_items {V} (items : list (Z * V)) : gmap Z V :=
  fold_left (fun d kv => <[kv.1 := kv.2]> d) items ∅.

(** [(-int(t[0]), t)] *)
Definition signal_item (t : list string) : res (Z * list string) :=
  match t !! 0%nat with
  | None => Raise IndexError
  | Some t0 =>
      match pystr.to_Z t0 with
      | None => Raise ValueError
      | Some n => Ret (- n, t)
      end
  end.

(** A list comprehension whose element expression may raise. *)
Fixpoint comprehension {A B} (f : A -> res B) (l : list A) : res (list B) :=
  match l with
  | [] => Ret []
  | x :: rest =>
      match f x with
      | Raise e => Raise e
      | Ret y =>
          match comprehension f rest with
          | Raise e => Raise e
          | Ret ys => Ret (y :: ys)
          end
      end
  end.

(** [unix_signals = dict([(-int(t[0]), t) for t in
      [line.split('\t') for line in unix_signals_tsv.split('\n')]])] *)
Definition load_unix_signals : res (gmap Z (list string)) :=
  match comprehension signal_item
          (map (pystr.split "009") (pystr.split "010" unix_signals_tsv)) with
  | Raise e => Raise e
  | Ret items => Ret (dict_of_items items)
  end.

(** The table the module holds once it is loaded. *)
Definition unix_signals_loaded : gmap Z (list string) :=
  match load_unix_signals with
  | Ret d => d
  | Raise _ => ∅
  end.

(** The state a process starts in: a file system, what will be typed,
    nothing printed yet, no handle open, the table loaded. *)
Definition initial_state (f : gmap string node) (input : list string) : state :=
  {| fs := f; stdin := input; events := []; open_sam := [];
     unix_signals := unix_signals_loaded |}.

(** The module docstring, which [print __doc__] shows. *)
Definition module_doc : string :=
  pystr.join NL [
    "Convert your alignment files in BAM format into coverage files in bigWig format";
    EmptyString;
    "Usage:";
    "    bam_to_bigwig.py BAM_FILE [BAM_FILE ...]";
    "    [-o, --bigwig_filename=<output file name>";
    "     -t, --tempfile";
    "     -k, --keep-tempfile";
    "     -s, --ignore-secondary";
    "     -q, --ignore-qc-fail";
    "     -d, --ignore-optical-pcr-duplicate";
    "     -u, --ignore-supplementary]";
    EmptyString;
    "--bigwig_filename: if not given will save to <BAM file prefix>.bigwig.";
    "--tempfile: If this is set, will use tempfile library to generate file names instead of using <BAM file prefix>.wig and <BAM file prefix>.sizes.";
    "--keep-tempfile: If this is set, will not delete the intermediate files <BAM file prefix>.wig and <BAM file prefix>.sizes.";
    "--ignore-secondary: If this is set, rsem-bam2wig will ignore alignments with the "
      +:+ DQ +:+ "secondary alignment" +:+ DQ +:+ " flag bit 0x100 set.";
    "--ignore-qc-fail: If this is set, rsem-bam2wig will ignore alignments with the "
      +:+ DQ +:+ "not passing quality controls" +:+ DQ +:+ " flag bit 0x200 set.";
    "--ignore-optical-pcr-duplicate: If this is set, rsem-bam2wig will ignore alignments with the "
      +:+ DQ +:+ "PCR or optical duplicate" +:+ DQ +:+ " flag bit 0x400 set.";
    "--ignore-supplementary: If this is set, rsem-bam2wig will ignore alignments with the "
      +:+ DQ +:+ "supplementary alignment" +:+ DQ +:+ " flag bit 0x800 set.";
    EmptyString ].

(** ** The program *)

Section program.

Variable E : env.

(** *** The operating system, as the program uses it *)

Definition abspath (p : string) : string := posixpath.abspath (getcwd E) p.

Definition gets {A} (f : state -> A) : M A := fun s => (Ret (f s), s).

Definition lift {A} (r : res A) : M A := fun s => (r, s).

Definition isfile (s : state) (p : string) : bool :=
  match fs s !! abspath p with
  | Some (File _ _) => true
  | _ => false
  end.

Definition exists_ (s : state) (p : string) : bool :=
  bool_decide (is_Some (fs s !! abspath p)).

(** [os.access(p, os.W_OK)] *)
Definition access_W (s : state) (p : string) : bool :=
  match fs s !! abspath p with
  | Some (File w _) => w
  | Some (Dir w _) => w
  | None => false
  end.

Definition os_path_isfile (p : string) : M bool := gets (fun s => isfile s p).
Definition os_path_exists (p : string) : M bool := gets (fun s => exists_ s p).
Definition os_access_W (p : string) : M bool := gets (fun s => access_W s p).

(** [os.path.getsize(p)] *)
Definition os_path_getsize (p : string) : M Z :=
  fun s =>
    match fs s !! abspath p with
    | Some (File _ c) => (Ret (Z.of_nat (String.length c)), s)
    | Some (Dir _ n) => (Ret n, s)
    | None => (Raise (OSError errno.ENOENT), s)
    end.

(** [os.remove(p)]: the entry must be a file, in a directory the
    process may write to. *)
Definition os_remove (p : string) : M unit :=
  fun s =>
    let k := abspath p in
    match fs s !! k with
    | None => (Raise (OSError errno.ENOENT), s)
    | Some (Dir _ _) => (Raise (OSError errno.EISDIR), s)
    | Some (File _ _) =>
        match fs s !! posixpath.dirname k with
        | Some (Dir false _) => (Raise (OSError errno.EACCES), s)
        | _ => (Ret tt, set_fs (delete k (fs s)) s)
        end
    end.

(** [open(p, "wb")]: an existing file is emptied, a missing one is
    created in its directory; the value is the handle, here the key of
    the file. *)
Definition open_wb (p : string) : M string :=
  fun s =>
    let k := abspath p in
    match fs s !! k with
    | Some (File true _) =>
        (Ret k, set_fs (<[k := File true EmptyString]> (fs s)) s)
    | Some (File false _) => (Raise (IOError errno.EACCES), s)
    | Some (Dir _ _) => (Raise (IOError errno.EISDIR), s)
    | None =>
        match fs s !! posixpath.dirname k with
        | Some (Dir true _) =>
            (Ret k, set_fs (<[k := File true EmptyString]> (fs s)) s)
        | Some (Dir false _) => (Raise (IOError errno.EACCES), s)
        | Some (File _ _) => (Raise (IOError errno.ENOTDIR), s)
        | None => (Raise (IOError errno.ENOENT), s)
        end
    end.

(** [fp.write(data)] *)
Definition fp_write (fp : string) (data : string) : M unit :=
  fun s =>
    match fs s !! fp with
    | Some (File w c) => (Ret tt, set_fs (<[fp := File w (c +:+ data)]> (fs s)) s)
    | _ => (Raise (IOError errno.EBADF), s)
    end.

(** [tempfile.NamedTemporaryFile(delete=False).name]: the file is
    created and stays. *)
Definition NamedTemporaryFile_name : M string :=
  fun s =>
    let name := temp_name E (fs s) in
    (Ret name, set_fs (<[abspath name := File true EmptyString]> (fs s)) s).

(** [p = Popen(cl); p.communicate(); p.returncode] *)
Definition Popen_communicate (cl : list string) : M Z :=
  fun s =>
    match run_tool E cl (fs s) with
    | None => (Raise (OSError errno.ENOENT), s)
    | Some (rc, f') =>
        (Ret rc, set_events (events s ++ [Spawn cl])%list (set_fs f' s))
    end.

(** [import pysam] *)
Definition import_pysam : M unit :=
  if pysam_importable E then ret tt else raise ImportError.

(** *** [query_yes_no] *)

Definition valid : gmap string bool :=
  <["n" := false]> (<["no" := false]> (<["ye" := true]>
    (<["y" := true]> (<["yes" := true]> ∅)))).

(** [valid[k]] *)
Definition valid_get (k : string) : M bool :=
  match valid !! k with
  | Some b => ret b
  | None => raise KeyError
  end.

(** The [while True] loop; [lines] is what is left on standard input,
    and each round takes one line ([raw_input] raises [EOFError] when
    there is none). *)
Fixpoint query_loop (question prompt : string) (default : option string)
    (lines : list string) : M bool :=
  stdout_write (question +:+ prompt) ;;
  match lines with
  | [] => raise EOFError
  | line :: rest =>
      (fun s => (Ret tt, set_stdin rest s)) ;;
      let choice := pystr.lower line in
      if bool_decide (default <> None) && String.eqb choice EmptyString
      then match default with
           | Some d => valid_get d
           | None => raise KeyError
           end
      else if bool_decide (is_Some (valid !! choice)) then valid_get choice
      else stdout_write ("Please respond with 'yes' or 'no' (or 'y' or 'n')." +:+ NL) ;;
           query_loop question prompt default rest
  end.

Definition query_yes_no (question : string) (default : option string) : M bool :=
  prompt <- match default with
            | None => ret " [y/n] "
            | Some d =>
                if String.eqb d "yes" then ret " [Y/n] "
                else if String.eqb d "no" then ret " [y/N] "
                else raise ValueError
            end ;;
  lines <- gets stdin ;;
  query_loop question prompt default lines.

(** *** Stage 1: [bam_to_wig] *)

Definition bam_to_wig (bam_filename wig_filename : string)
    (ignore_secondary ignore_qc_fail ignore_optical_pcr_duplicate
     ignore_supplementary : bool) : M pyval :=
  let file_prefix := (posixpath.splitext bam_filename).1 in
  let wig_filename :=
    if String.eqb wig_filename EmptyString then file_prefix +:+ ".wig"
    else wig_filename in
  let launch : M pyval :=
    let cl := (["rsem-bam2wig"; bam_filename; wig_filename; file_prefix;
                "--no-fractional-weight"]
               ++ (if ignore_secondary then ["--ignore-secondary"] else [])
               ++ (if ignore_qc_fail then ["--ignore-qc-fail"] else [])
               ++ (if ignore_optical_pcr_duplicate
                   then ["--ignore-optical-pcr-duplicate"] else [])
               ++ (if ignore_supplementary then ["--ignore-supplementary"] else []))%list in
    rc <- Popen_communicate cl ;;
    (if negb (rc =? 0) then
       if rc <? 0 then
         try_except
           (d <- gets unix_signals ;;
            t1 <- dict_get d rc ;; name <- list_get t1 1 ;;
            t2 <- dict_get d rc ;; disposition <- list_get t2 2 ;;
            t3 <- dict_get d rc ;; description <- list_get t3 3 ;;
            log_critical (DQ +:+ pystr.join " " cl +:+ DQ
                          +:+ " was terminated by signal " +:+ pystr.of_Z (- rc)
                          +:+ ": " +:+ name +:+ ", " +:+ disposition
                          +:+ ", " +:+ description))
           (fun e =>
              match e with
              | KeyError =>
                  Some (log_critical (DQ +:+ pystr.join " " cl +:+ DQ
                                      +:+ " was terminated by signal "
                                      +:+ pystr.of_Z (- rc)))
              | _ => None
              end)
       else
         log_critical (DQ +:+ pystr.join " " cl +:+ DQ
                       +:+ " terminated with non-zero return code: "
                       +:+ pystr.of_Z rc)
     else ret tt) ;;
    ret (PyTuple [PyBool (rc =? 0); PyInt rc]) in
  is_file <- os_path_isfile wig_filename ;;
  if is_file then
    ok <- os_access_W wig_filename ;;
    if negb ok then
      log_critical ("Write permission denied: " +:+ abspath wig_filename) ;;
      ret (PyBool false)
    else launch
  else
    ok <- os_access_W (posixpath.dirname (abspath wig_filename)) ;;
    if negb ok then
      log_critical ("Write permission denied: "
                    +:+ posixpath.dirname (abspath wig_filename)) ;;
      ret (PyBool false)
    else launch.

(** *** The index accessor: [indexed_bam], [get_sizes_from_bam] *)

(** [indexed_bam] up to its [yield] *)
Definition indexed_bam_enter (bam_filename : string) : M Samfile :=
  import_pysam ;;
  has_index <- os_path_exists (bam_filename +:+ ".bai") ;;
  (if negb has_index
   then fun s => let '(r, f') := pysam_index E bam_filename (fs s) in
                 (r, set_fs f' s)
   else ret tt) ;;
  sam_reader <- (fun s => (pysam_Samfile E bam_filename (fs s), s)) ;;
  (fun s => (Ret tt, set_open_sam (sam_path sam_reader :: open_sam s) s)) ;;
  ret sam_reader.

(** One occurrence of [x] taken out of [l]. *)
Fixpoint remove_first (x : string) (l : list string) : list string :=
  match l with
  | [] => []
  | y :: rest => if String.eqb x y then rest else y :: remove_first x rest
  end.

(** [indexed_bam] after its [yield]: [sam_reader.close()] *)
Definition indexed_bam_leave (sam_reader : Samfile) : M unit :=
  fun s => (Ret tt, set_open_sam (remove_first (sam_path sam_reader) (open_sam s)) s).

Definition indexed_bam {A} (bam_filename : string) (body : Samfile -> M A) : M A :=
  with_contextmanager (indexed_bam_enter bam_filename) indexed_bam_leave body.

(** [zip(a, b)] *)
Fixpoint zip {A B} (a : list A) (b : list B) : list (A * B) :=
  match a, b with
  | x :: a', y :: b' => (x, y) :: zip a' b'
  | _, _ => []
  end.

Definition get_sizes_from_bam (bam_filename : string) : M (list (string * Z)) :=
  indexed_bam bam_filename (fun work_bam =>
    refs <- lift (references work_bam) ;;
    lens <- lift (lengths work_bam) ;;
    ret (zip refs lens)).

(** *** The size-table writer: [bam_to_sizes] *)

Definition bam_to_sizes (bam_filename chr_sizes_filename : string) : M bool :=
  chr_sizes <- get_sizes_from_bam bam_filename ;;
  opened <- try_except
              (fp <- open_wb chr_sizes_filename ;; ret (Some fp))
              (fun e =>
                 match e with
                 | IOError n =>
                     Some (if n =? errno.EACCES then
                             log_critical ("Write permission denied: "
                                           +:+ abspath chr_sizes_filename) ;;
                             ret None
                           else raise e)
                 | _ => None
                 end) ;;
  match opened with
  | None => ret false
  | Some fp =>
      for_each chr_sizes (fun '(chrom, size) =>
        fp_write fp (chrom +:+ TAB +:+ pystr.of_Z size +:+ NL)) ;;
      ret true
  end.

(** *** Stage 2: [wig_to_bigwig] *)

Definition wig_to_bigwig (wig_filename bigwig_filename chr_sizes_filename : string)
    : M pyval :=
  let file_prefix := (posixpath.splitext wig_filename).1 in
  let bigwig_filename :=
    if String.eqb bigwig_filename EmptyString then file_prefix +:+ ".bigwig"
    else bigwig_filename in
  let launch : M pyval :=
    let cl := ["wigToBigWig"; wig_filename; chr_sizes_filename; bigwig_filename] in
    rc <- Popen_communicate cl ;;
    (if negb (rc =? 0) then
       if rc <? 0 then
         try_except
           (d <- gets unix_signals ;;
            t1 <- dict_get d rc ;; name <- list_get t1 1 ;;
            t2 <- dict_get d rc ;; disposition <- list_get t2 2 ;;
            t3 <- dict_get d rc ;; description <- list_get t3 3 ;;
            log_critical (DQ +:+ pystr.join " " cl +:+ DQ
                          +:+ " was terminated by signal " +:+ pystr.of_Z (- rc)
                          +:+ ": " +:+ name +:+ ", " +:+ disposition
                          +:+ ", " +:+ description))
           (fun e =>
              match e with
              | KeyError =>
                  Some (log_critical (DQ +:+ pystr.join " " cl +:+ DQ
                                      +:+ " was terminated by signal "
                                      +:+ pystr.of_Z (- rc)))
              | _ => None
              end)
       else
         log_critical (DQ +:+ pystr.join " " cl +:+ DQ
                       +:+ " terminated with non-zero return code: "
                       +:+ pystr.of_Z rc)
     else ret tt) ;;
    ret (PyTuple [PyBool (rc =? 0); PyInt rc]) in
  is_file <- os_path_isfile bigwig_filename ;;
  if is_file then
    ok <- os_access_W bigwig_filename ;;
    if negb ok then
      log_critical ("Write permission denied: " +:+ abspath bigwig_filename) ;;
      ret (PyBool false)
    else launch
  else
    ok <- os_access_W (posixpath.dirname (abspath bigwig_filename)) ;;
    if negb ok then
      log_critical ("Write permission denied: "
                    +:+ posixpath.dirname (abspath bigwig_filename)) ;;
      ret (PyBool false)
    else launch.

(** *** The pipeline controller: [main] *)

(** [main] from its first line to the end of stage 2 (source lines 237
    to 273); the value is what the locals [wig_filename] and
    [chr_sizes_filename] hold when the clean-up starts. *)
Definition main_stages (bam_filename : string) (bigwig_filename : option string)
    (use_tempfile : bool)
    (ignore_secondary ignore_qc_fail ignore_optical_pcr_duplicate
     ignore_supplementary : bool) : M (string * string) :=
  let file_prefix := (posixpath.splitext bam_filename).1 in
  let bigwig_filename :=
    match bigwig_filename with
    | None => file_prefix +:+ ".bigwig"
    | Some name => name
    end in
  (if String.eqb (abspath bam_filename) (abspath bigwig_filename) then
     stderr_write ("Bad arguments, input and output files are the same." +:+ NL) ;;
     sys_exit (Some 1)
   else ret tt) ;;
  present <- os_path_exists bigwig_filename ;;
  nonempty <- (if present
               then size <- os_path_getsize bigwig_filename ;; ret (0 <? size)
               else ret false) ;;
  (if nonempty then
     answer <- query_yes_no "Output file exists and not empty, overwrite?" (Some "no") ;;
     if negb answer then sys_exit (Some 1) else ret tt
   else ret tt) ;;
  (* run rsem-bam2wig *)
  wig_filename <- (if use_tempfile then NamedTemporaryFile_name
                   else ret (file_prefix +:+ ".wig")) ;;
  stdout_write ("Building wig file: " +:+ wig_filename +:+ " ..." +:+ NL) ;;
  r1 <- bam_to_wig bam_filename wig_filename ignore_secondary ignore_qc_fail
          ignore_optical_pcr_duplicate ignore_supplementary ;;
  (if negb (truthy r1) then sys_exit (Some 1) else ret tt) ;;
  stdout_write ("Done" +:+ NL) ;;
  (* generate sizes file *)
  chr_sizes_filename <- (if use_tempfile then NamedTemporaryFile_name
                         else ret (file_prefix +:+ ".sizes")) ;;
  stdout_write ("Building sizes file: " +:+ chr_sizes_filename +:+ " ...") ;;
  r2 <- bam_to_sizes bam_filename chr_sizes_filename ;;
  (if negb r2 then stdout_write (" Failed" +:+ NL) ;; sys_exit (Some 1)
   else ret tt) ;;
  stdout_write (" Done" +:+ NL) ;;
  (* run wigToBigWig *)
  stdout_write ("Building bigwig file: " +:+ bigwig_filename +:+ " ...") ;;
  r3 <- wig_to_bigwig wig_filename bigwig_filename chr_sizes_filename ;;
  (if negb (truthy r3) then stdout_write (" Failed" +:+ NL) ;; sys_exit (Some 1)
   else ret tt) ;;
  stdout_write (" Done" +:+ NL) ;;
  ret (wig_filename, chr_sizes_filename).

(** [main]: the stages, then the removal of the temporary files
    (source lines 275 to 278). *)
Definition main (bam_filename : string) (bigwig_filename : option string)
    (use_tempfile keep_tempfile : bool)
    (ignore_secondary ignore_qc_fail ignore_optical_pcr_duplicate
     ignore_supplementary : bool) : M unit :=
  names <- main_stages bam_filename bigwig_filename use_tempfile
             ignore_secondary ignore_qc_fail ignore_optical_pcr_duplicate
             ignore_supplementary ;;
  let '(wig_filename, chr_sizes_filename) := names in
  if negb keep_tempfile then
    os_remove chr_sizes_filename ;;
    os_remove wig_filename
  else ret tt.

(** *** [dependences_exist] *)

(** [call(cl, stdout=DEVNULL, stderr=STDOUT)]; the return code is not
    looked at. *)
Definition call (cl : list string) : M unit := Popen_communicate cl ;; ret tt.

(** One probe: [try: probe  except <kind>: all_good = False; log]. The
    value is the new [all_good]. *)
Definition probe (all_good : bool) (attempt : M unit) (catches : exn -> bool)
    (msg : string) : M bool :=
  try_except (attempt ;; ret all_good)
    (fun e => if catches e then Some (log_critical msg ;; ret false) else None).

Definition dependences_exist : M bool :=
  let all_good := true in
  all_good <- probe all_good import_pysam
                (fun e => match e with ImportError => true | _ => false end)
                "Missing dependency: pysam (https://github.com/pysam-developers/pysam)" ;;
  all_good <- probe all_good (call ["wigToBigWig"])
                (fun e => match e with OSError _ => true | _ => false end)
                "Missing dependency: wigToBigWig from UCSC (http://hgdownload.cse.ucsc.edu/admin/exe/)" ;;
  all_good <- probe all_good (call ["rsem-bam2wig"])
                (fun e => match e with OSError _ => true | _ => false end)
                "Missing dependency: rsem-bam2wig from RSEM (http://deweylab.biostat.wisc.edu/rsem/)" ;;
  ret all_good.

(** *** The script ([if __name__ == '__main__']) *)

(** What [parser.parse_args()] returns besides the positional
    arguments. *)
Record options := {
  opt_bigwig_filename : option string;
  opt_use_tempfile : bool;
  opt_keep_tempfile : bool;
  opt_ignore_secondary : bool;
  opt_ignore_qc_fail : bool;
  opt_ignore_optical_pcr_duplicate : bool;
  opt_ignore_supplementary : bool
}.

(** [main(bam_filename, **kwargs)] *)
Definition main_kwargs (o : options) (bam_filename : string) : M unit :=
  main bam_filename (opt_bigwig_filename o) (opt_use_tempfile o)
    (opt_keep_tempfile o) (opt_ignore_secondary o) (opt_ignore_qc_fail o)
    (opt_ignore_optical_pcr_duplicate o) (opt_ignore_supplementary o).

(** The [try] statement that ends the script. *)
Definition file_loop (o : options) (args : list string) : M unit :=
  try_except (for_each args (main_kwargs o))
    (fun e =>
       match e with
       | KeyboardInterrupt =>
           Some (stdout_write NL ;; log_info "Aborted by keyboard interrupt")
       | _ => None
       end).

(** The script after [parser.parse_args()]. *)
Definition script (o : options) (args : list string) : M unit :=
  (if bool_decide (length args = 0%nat) then
     stdout_write (module_doc +:+ NL) ;;
     dependences_exist ;;
     sys_exit None
   else ret tt) ;;
  ok <- dependences_exist ;;
  (if negb ok then sys_exit None else ret tt) ;;
  file_loop o args.

End program.

(** ** The specification's vocabulary *)

(** The command lines the two stage wrappers build, and the paths whose
    write permission they check first. *)
Definition stage1_target (bam_filename wig_filename : string) : string :=
  if String.eqb wig_filename EmptyString
  then (posixpath.splitext bam_filename).1 +:+ ".wig"
  else wig_filename.

Definition stage1_command (bam_filename wig_filename : string)
    (ignore_secondary ignore_qc_fail ignore_optical_pcr_duplicate
     ignore_supplementary : bool) : list string :=
  (["rsem-bam2wig"; bam_filename; stage1_target bam_filename wig_filename;
    (posixpath.splitext bam_filename).1; "--no-fractional-weight"]
   ++ (if ignore_secondary then ["--ignore-secondary"] else [])
   ++ (if ignore_qc_fail then ["--ignore-qc-fail"] else [])
   ++ (if ignore_optical_pcr_duplicate then ["--ignore-optical-pcr-duplicate"] else [])
   ++ (if ignore_supplementary then ["--ignore-supplementary"] else []))%list.

Definition stage2_target (wig_filename bigwig_filename : string) : string :=
  if String.eqb bigwig_filename EmptyString
  then (posixpath.splitext wig_filename).1 +:+ ".bigwig"
  else bigwig_filename.

Definition stage2_command (wig_filename bigwig_filename chr_sizes_filename : string)
    : list string :=
  ["wigToBigWig"; wig_filename; chr_sizes_filename;
   stage2_target wig_filename bigwig_filename].

(** The output path [main] resolves. *)
Definition resolved_output (bam_filename : string) (bigwig_filename : option string)
    : string :=
  match bigwig_filename with
  | None => (posixpath.splitext bam_filename).1 +:+ ".bigwig"
  | Some name => name
  end.

(** The Permission Checker's contract, in the specification's words: the
    file itself when the path is an existing file, else the directory
    that contains it. *)
Definition canWrite (E : env) (s : state) (path : string) : bool :=
  if isfile E s path then access_W E s path
  else access_W E s (posixpath.dirname (abspath E path)).

(** The Subprocess Runner's classification, in the specification's
    words. *)
Inductive outcome :=
| Success
| NonZeroExit (status : Z)
| KilledBySignal (signo : Z) (info : option (string * string * string)).

(** Name, disposition and description of a signal of the table. *)
Definition signal_info (signo : Z) : option (string * string * string) :=
  match unix_signals_loaded !! (- signo) with
  | Some [_; name; disposition; description] => Some (name, disposition, description)
  | _ => None
  end.

Definition classify (rc : Z) : outcome :=
  if rc =? 0 then Success
  else if 0 <? rc then NonZeroExit rc
  else KilledBySignal (- rc)
         (if (1 <=? - rc) && (- rc <=? 34) then signal_info (- rc) else None).

(** What is logged for an outcome of the command line [cl]. *)
Definition report (cl : list string) (o : outcome) : list event :=
  match o with
  | Success => []
  | NonZeroExit status =>
      [Log CRITICAL (DQ +:+ pystr.join " " cl +:+ DQ
                     +:+ " terminated with non-zero return code: "
                     +:+ pystr.of_Z status)]
  | KilledBySignal signo (Some (name, disposition, description)) =>
      [Log CRITICAL (DQ +:+ pystr.join " " cl +:+ DQ
                     +:+ " was terminated by signal " +:+ pystr.of_Z signo
                     +:+ ": " +:+ name +:+ ", " +:+ disposition
                     +:+ ", " +:+ description)]
  | KilledBySignal signo None =>
      [Log CRITICAL (DQ +:+ pystr.join " " cl +:+ DQ
                     +:+ " was terminated by signal " +:+ pystr.of_Z signo)]
  end.

(** The size table as the specification describes it: one line
    [name<TAB>length] per reference, in order, nothing before. *)
Definition size_table_line (entry : string * Z) : string :=
  entry.1 +:+ TAB +:+ pystr.of_Z entry.2 +:+ NL.

Fixpoint size_table_text (catalog : list (string * Z)) : string :=
  match catalog with
  | [] => EmptyString
  | entry :: rest => size_table_line entry +:+ size_table_text rest
  end.

(** The file loop the propagation policy of the specification asks for:
    a [sys.exit] ends the pipeline of the current file only. *)
Definition isolated_file_loop (E : env) (o : options) (args : list string) : M unit :=
  for_each args (fun bam_filename =>
    try_except (main_kwargs E o bam_filename)
      (fun e => match e with SystemExit _ => Some (ret tt) | _ => None end)).

(** The subprocesses of a trace, and the trace without its log records. *)
Definition spawned (ev : list event) : list (list string) :=
  omap (fun e => match e with Spawn cl => Some cl | _ => None end) ev.

Definition is_log (e : event) : bool :=
  match e with Log _ _ => true | _ => false end.

Definition unlogged (ev : list event) : list event :=
  List.filter (fun e => negb (is_log e)) ev.

(** A signal table whose rows have the four columns. *)
Definition four_columns (d : gmap Z (list string)) : Prop :=
  forall k row, d !! k = Some row -> length row = 4%nat.

Definition set_unix_signals (d : gmap Z (list string)) (s : state) : state :=
  {| fs := fs s; stdin := stdin s; events := events s;
     open_sam := open_sam s; unix_signals := d |}.

(** ** Concrete worlds *)

Module World.

(** How the outside behaves in a scenario. *)
Record scenario := {
  stage1_rc : Z;                       (* what rsem-bam2wig returns *)
  stage2_rc : Z;                       (* what wigToBigWig returns *)
  wigToBigWig_installed : bool;
  stage2_deletes_wig : bool;           (* the coverage file is gone after stage 2 *)
  catalog : res (list string)          (* reading [references] *)
}.

(** Both tools leave their output file behind, complete or not,
    whatever they return. *)

Definition cwd : string := "/work".

Definition at_ (p : string) : string := posixpath.abspath cwd p.

Definition tools (sc : scenario) (cl : list string) (f : gmap string node)
    : option (Z * gmap string node) :=
  match cl with
  | "rsem-bam2wig" :: _ :: wig :: _ =>
      Some (stage1_rc sc, <[at_ wig := File true "coverage"]> f)
  | ["rsem-bam2wig"] => Some (255, f)
  | "wigToBigWig" :: rest =>
      if wigToBigWig_installed sc then
        match rest with
        | [wig; sizes; out] =>
            Some (stage2_rc sc,
                  let f' := <[at_ out := File true "track"]> f in
                  if stage2_deletes_wig sc then delete (at_ wig) f' else f')
        | _ => Some (255, f)
        end
      else None
  | _ => None
  end.

Definition make (sc : scenario) : env := {|
  getcwd := cwd;
  run_tool := tools sc;
  pysam_importable := true;
  pysam_index := fun bam f => (Ret tt, <[at_ (bam +:+ ".bai") := File true "index"]> f);
  pysam_Samfile := fun bam f =>
    Ret {| sam_path := bam; references := catalog sc; lengths := Ret [1000; 2000] |};
  temp_name := fun f =>
    if bool_decide (is_Some (f !! "/tmp/tmpA")) then "/tmp/tmpB" else "/tmp/tmpA"
|}.

Definition healthy : scenario := {|
  stage1_rc := 0; stage2_rc := 0; wigToBigWig_installed := true;
  stage2_deletes_wig := false; catalog := Ret ["chr1"; "chr2"]
|}.

Definition stage1_fails : scenario := {|
  stage1_rc := 1; stage2_rc := 0; wigToBigWig_installed := true;
  stage2_deletes_wig := false; catalog := Ret ["chr1"; "chr2"]
|}.

Definition stage1_killed : scenario := {|
  stage1_rc := -9; stage2_rc := 0; wigToBigWig_installed := true;
  stage2_deletes_wig := false; catalog := Ret ["chr1"; "chr2"]
|}.

Definition stage2_fails : scenario := {|
  stage1_rc := 0; stage2_rc := 255; wigToBigWig_installed := true;
  stage2_deletes_wig := false; catalog := Ret ["chr1"; "chr2"]
|}.

Definition encoder_missing : scenario := {|
  stage1_rc := 0; stage2_rc := 0; wigToBigWig_installed := false;
  stage2_deletes_wig := false; catalog := Ret ["chr1"; "chr2"]
|}.

Definition coverage_vanishes : scenario := {|
  stage1_rc := 0; stage2_rc := 0; wigToBigWig_installed := true;
  stage2_deletes_wig := true; catalog := Ret ["chr1"; "chr2"]
|}.

Definition interrupted_catalog : scenario := {|
  stage1_rc := 0; stage2_rc := 0; wigToBigWig_installed := true;
  stage2_deletes_wig := false; catalog := Raise KeyboardInterrupt
|}.

(** A working directory with two alignment files, one of them in a
    read-only directory, and an output left by an earlier run. *)
Definition disk : gmap string node :=
  <["/work/sample.bam" := File true "BAM"]>
    (<["/work/other.bam" := File true "BAM"]>
      (<["/work/ro/locked.bam" := File true "BAM"]>
        (<["/work/old.bigwig" := File true "old track"]>
          (<["/work/ro" := Dir false 4096]>
            (<["/work" := Dir true 4096]>
              (<["/tmp" := Dir true 4096]> ∅)))))).

Definition defaults : options := {|
  opt_bigwig_filename := None;
  opt_use_tempfile := false;
  opt_keep_tempfile := false;
  opt_ignore_secondary := false;
  opt_ignore_qc_fail := false;
  opt_ignore_optical_pcr_duplicate := false;
  opt_ignore_supplementary := false
|}.

Definition keeping : options := {|
  opt_bigwig_filename := None;
  opt_use_tempfile := false;
  opt_keep_tempfile := true;
  opt_ignore_secondary := false;
  opt_ignore_qc_fail := false;
  opt_ignore_optical_pcr_duplicate := false;
  opt_ignore_supplementary := false
|}.

(** [-o ro/sample.bigwig]: the track is to go into the read-only
    directory. *)
Definition into_locked : options := {|
  opt_bigwig_filename := Some "ro/sample.bigwig";
  opt_use_tempfile := false;
  opt_keep_tempfile := false;
  opt_ignore_secondary := false;
  opt_ignore_qc_fail := false;
  opt_ignore_optical_pcr_duplicate := false;
  opt_ignore_supplementary := false
|}.

(** [-o old.bigwig]: the track is to replace the one that exists. *)
Definition over_old : options := {|
  opt_bigwig_filename := Some "old.bigwig";
  opt_use_tempfile := false;
  opt_keep_tempfile := false;
  opt_ignore_secondary := false;
  opt_ignore_qc_fail := false;
  opt_ignore_optical_pcr_duplicate := false;
  opt_ignore_supplementary := false
|}.

Definition start (input : list string) : state := initial_state disk input.

End World.

(** ** Vocabulary of the proofs *)

(** What a stage wrapper logs when the permission check fails. *)
Definition denial_message (E : env) (s : state) (target : string) : string :=
  "Write permission denied: "
  +:+ (if isfile E s target then abspath E target
       else posixpath.dirname (abspath E target)).

(** [os.path.exists(p) and os.path.getsize(p) > 0] *)
Definition exists_nonempty (E : env) (s : state) (p : string) : bool :=
  exists_ E s p &&
  match (os_path_getsize E p s).1 with
  | Ret size => 0 <? size
  | Raise _ => false
  end.

(** [os.remove(p)] would succeed. *)
Definition removable (E : env) (s : state) (p : string) : bool :=
  match (os_remove E p s).1 with
  | Ret _ => true
  | Raise _ => false
  end.

(** [main] cut at its exits, to name the state in which each stage is
    called. First the checks of the paths (source lines 240 to 245). *)
Definition main_checks (E : env) (bam_filename bigwig_filename : string) : M unit :=
  (if String.eqb (abspath E bam_filename) (abspath E bigwig_filename) then
     stderr_write ("Bad arguments, input and output files are the same." +:+ NL) ;;
     sys_exit (Some 1)
   else ret tt) ;;
  present <- os_path_exists E bigwig_filename ;;
  nonempty <- (if present
               then size <- os_path_getsize E bigwig_filename ;; ret (0 <? size)
               else ret false) ;;
  if nonempty then
    answer <- query_yes_no "Output file exists and not empty, overwrite?" (Some "no") ;;
    if negb answer then sys_exit (Some 1) else ret tt
  else ret tt.

(** The call of stage 1 (source lines 247 to 253): the name of the
    coverage file and what [bam_to_wig] returns. *)
Definition main_stage1 (E : env) (bam_filename : string) (use_tempfile : bool)
    (ignore_secondary ignore_qc_fail ignore_optical_pcr_duplicate
     ignore_supplementary : bool) : M (string * pyval) :=
  wig_filename <- (if use_tempfile then NamedTemporaryFile_name E
                   else ret ((posixpath.splitext bam_filename).1 +:+ ".wig")) ;;
  stdout_write ("Building wig file: " +:+ wig_filename +:+ " ..." +:+ NL) ;;
  r1 <- bam_to_wig E bam_filename wig_filename ignore_secondary ignore_qc_fail
          ignore_optical_pcr_duplicate ignore_supplementary ;;
  ret (wig_filename, r1).

(** The call of the size-table writer (source lines 255 to 263): the
    name of the size table and what [bam_to_sizes] returns. *)
Definition main_sizes (E : env) (bam_filename : string) (use_tempfile : bool)
    : M (string * bool) :=
  stdout_write ("Done" +:+ NL) ;;
  chr_sizes_filename <- (if use_tempfile then NamedTemporaryFile_name E
                         else ret ((posixpath.splitext bam_filename).1 +:+ ".sizes")) ;;
  stdout_write ("Building sizes file: " +:+ chr_sizes_filename +:+ " ...") ;;
  r2 <- bam_to_sizes E bam_filename chr_sizes_filename ;;
  ret (chr_sizes_filename, r2).

(** The call of stage 2 (source lines 266 to 270). *)
Definition main_stage2 (E : env) (wig_filename bigwig_filename chr_sizes_filename : string)
    : M pyval :=
  stdout_write (" Done" +:+ NL) ;;
  stdout_write ("Building bigwig file: " +:+ bigwig_filename +:+ " ...") ;;
  wig_to_bigwig E wig_filename bigwig_filename chr_sizes_filename.

(** The failures of one input file's pipeline that the specification
    names and [main] detects, one for each [sys.exit(1)] of [main]: the
    two precondition violations (same input and output, source line
    242; overwrite declined, line 245) and the three permission denials
    (a stage wrapper or the size-table writer returns a false value,
    which is [False], returned when write permission is denied: stage 1,
    line 254; the size table, line 265; stage 2, line 272). A denial is
    taken in the state the run of [main] has reached, whatever came
    before it: an accepted overwrite, temporary names, a stage whose
    tool has run. *)
Inductive pipeline_fails (E : env) (o : options) (bam : string) (s : state) : Prop :=
| identical_paths :
    abspath E bam = abspath E (resolved_output bam (opt_bigwig_filename o)) ->
    pipeline_fails E o bam s
| declined_overwrite :
    abspath E bam <> abspath E (resolved_output bam (opt_bigwig_filename o)) ->
    exists_nonempty E s (resolved_output bam (opt_bigwig_filename o)) = true ->
    (query_yes_no "Output file exists and not empty, overwrite?" (Some "no") s).1
    = Ret false ->
    pipeline_fails E o bam s
| stage1_permission_denied s1 wig r1 s2 :
    main_checks E bam (resolved_output bam (opt_bigwig_filename o)) s = (Ret tt, s1) ->
    main_stage1 E bam (opt_use_tempfile o) (opt_ignore_secondary o)
      (opt_ignore_qc_fail o) (opt_ignore_optical_pcr_duplicate o)
      (opt_ignore_supplementary o) s1 = (Ret (wig, r1), s2) ->
    truthy r1 = false ->
    pipeline_fails E o bam s
| size_table_permission_denied s1 wig r1 s2 sizes s3 :
    main_checks E bam (resolved_output bam (opt_bigwig_filename o)) s = (Ret tt, s1) ->
    main_stage1 E bam (opt_use_tempfile o) (opt_ignore_secondary o)
      (opt_ignore_qc_fail o) (opt_ignore_optical_pcr_duplicate o)
      (opt_ignore_supplementary o) s1 = (Ret (wig, r1), s2) ->
    truthy r1 = true ->
    main_sizes E bam (opt_use_tempfile o) s2 = (Ret (sizes, false), s3) ->
    pipeline_fails E o bam s
| stage2_permission_denied s1 wig r1 s2 sizes s3 r3 s4 :
    main_checks E bam (resolved_output bam (opt_bigwig_filename o)) s = (Ret tt, s1) ->
    main_stage1 E bam (opt_use_tempfile o) (opt_ignore_secondary o)
      (opt_ignore_qc_fail o) (opt_ignore_optical_pcr_duplicate o)
      (opt_ignore_supplementary o) s1 = (Ret (wig, r1), s2) ->
    truthy r1 = true ->
    main_sizes E bam (opt_use_tempfile o) s2 = (Ret (sizes, true), s3) ->
    main_stage2 E wig (resolved_output bam (opt_bigwig_filename o)) sizes s3
    = (Ret r3, s4) ->
    truthy r3 = false ->
    pipeline_fails E o bam s.

(** A row of the signal table as the module builds it: key between -34
    and -1, four columns, the first one the signal number. *)
Definition row_ok (kv : Z * list string) : bool :=
  (-34 <=? kv.1) && (kv.1 <=? -1) &&
  match kv.2 with
  | [a; _; _; _] => String.eqb a (pystr.of_Z (- kv.1))
  | _ => false
  end.

(** A computation every step of which respects the relation [R] between
    the state before and the state after. *)
Definition preserves (R : relation state) {A} (m : M A) : Prop :=
  forall s, R s (m s).2.

(** "The signal table is the same." *)
Definition same_signals (s s' : state) : Prop := unix_signals s' = unix_signals s.

(** "No subprocess was launched and no file was touched." *)
Definition nothing_launched (s s' : state) : Prop :=
  fs s' = fs s /\ spawned (events s') = spawned (events s).

(** Two states that differ at most in the signal table and in what was
    logged. *)
Definition agree (s1 s2 : state) : Prop :=
  fs s1 = fs s2 /\ stdin s1 = stdin s2 /\ open_sam s1 = open_sam s2
  /\ unlogged (events s1) = unlogged (events s2)
  /\ four_columns (unix_signals s1) /\ four_columns (unix_signals s2).

(** A computation whose result, and whose effects other than log
    records, do not depend on the signal table. *)
Definition indep {A} (m : M A) : Prop :=
  forall s1 s2, agree s1 s2 -> (m s1).1 = (m s2).1 /\ agree (m s1).2 (m s2).2.

(** The code that both stage wrappers run on the return code. *)
Local Abbreviation diagnosis_block cl rc :=
  (if negb (rc =? 0) then
     if rc <? 0 then
       try_except
         (d <- gets unix_signals ;;
          t1 <- dict_get d rc ;; name <- list_get t1 1 ;;
          t2 <- dict_get d rc ;; disposition <- list_get t2 2 ;;
          t3 <- dict_get d rc ;; description <- list_get t3 3 ;;
          log_critical (DQ +:+ pystr.join " " cl +:+ DQ
                        +:+ " was terminated by signal " +:+ pystr.of_Z (- rc)
                        +:+ ": " +:+ name +:+ ", " +:+ disposition
                        +:+ ", " +:+ description))
         (fun e =>
            match e with
            | KeyError =>
                Some (log_critical (DQ +:+ pystr.join " " cl +:+ DQ
                                    +:+ " was terminated by signal "
                                    +:+ pystr.of_Z (- rc)))
            | _ => None
            end)
     else
       log_critical (DQ +:+ pystr.join " " cl +:+ DQ
                     +:+ " terminated with non-zero return code: "
                     +:+ pystr.of_Z rc)
   else ret tt).

(** ** Vocabulary of the further properties *)

(** The defaults [query_yes_no] accepts. *)
Definition default_ok (default : option string) : Prop :=
  default = None \/ default = Some "yes" \/ default = Some "no".

(** The prompt that goes with a default. *)
Definition prompt_for (default : option string) : string :=
  match default with
  | None => " [y/n] "
  | Some d => if String.eqb d "yes" then " [Y/n] " else " [y/N] "
  end.

(** What one typed line answers: [None] when the question is asked
    again. *)
Definition answer (default : option string) (line : string) : option bool :=
  let choice := pystr.lower line in
  if bool_decide (default <> None) && String.eqb choice EmptyString
  then default ≫= (fun d => valid !! d)
  else valid !! choice.

Definition complaint : string :=
  "Please respond with 'yes' or 'no' (or 'y' or 'n')." +:+ NL.

(** What is printed for the lines that were not understood, and then the
    question once more. *)
Fixpoint asked (question prompt : string) (rejected : list string) : list event :=
  match rejected with
  | [] => [Stdout (question +:+ prompt)]
  | _ :: rest => Stdout (question +:+ prompt) :: Stdout complaint
                 :: asked question prompt rest
  end.

(** A string without the character [c]. *)
Fixpoint lacks (c : ascii) (s : string) : bool :=
  match s with
  | EmptyString => true
  | String d s' => negb (Ascii.eqb d c) && lacks c s'
  end.

(** The file system the first dependency probe leaves. *)
Definition after_probe (E : env) (cl : list string) (f : gmap string node)
    : gmap string node :=
  match run_tool E cl f with
  | Some (_, f') => f'
  | None => f
  end.

Definition startable (E : env) (cl : list string) (f : gmap string node) : bool :=
  bool_decide (is_Some (run_tool E cl f)).

(** "Standard input is where it was." *)
Definition same_stdin (s s' : state) : Prop := stdin s' = stdin s.

(** [indexed_bam] up to the opening of the alignment: the index is built
    only when there is none. *)
Definition index_step (E : env) (bam : string) (s : state)
    : res unit * gmap string node :=
  if exists_ E s (bam +:+ ".bai") then (Ret tt, fs s)
  else pysam_index E bam (fs s).

(** The result of the three dependency probes. *)
Definition dependencies_present (E : env) (f : gmap string node) : bool :=
  pysam_importable E
  && startable E ["wigToBigWig"] f
  && startable E ["rsem-bam2wig"] (after_probe E ["wigToBigWig"] f).

(** What the probes log. *)
Definition missing_messages (E : env) (f : gmap string node) : list event :=
  (if pysam_importable E then []
   else [Log CRITICAL "Missing dependency: pysam (https://github.com/pysam-developers/pysam)"])
  ++ (if startable E ["wigToBigWig"] f then []
      else [Log CRITICAL "Missing dependency: wigToBigWig from UCSC (http://hgdownload.cse.ucsc.edu/admin/exe/)"])
  ++ (if startable E ["rsem-bam2wig"] (after_probe E ["wigToBigWig"] f) then []
      else [Log CRITICAL "Missing dependency: rsem-bam2wig from RSEM (http://deweylab.biostat.wisc.edu/rsem/)"]).

(** The subprocesses the probes start. *)
Definition probes_started (E : env) (f : gmap string node) : list (list string) :=
  (if startable E ["wigToBigWig"] f then [["wigToBigWig"]] else [])
  ++ (if startable E ["rsem-bam2wig"] (after_probe E ["wigToBigWig"] f)
      then [["rsem-bam2wig"]] else []).

(** "No subprocess was launched." *)
Definition same_spawned (s s' : state) : Prop :=
  spawned (events s') = spawned (events s).

(** The subprocess lists [main] can leave behind: nothing new, stage 1,
    or stage 1 and then stage 2. *)
Definition in_stage_order (before after : list (list string)) : Prop :=
  exists cl1 cl2,
    head cl1 = Some "rsem-bam2wig" /\ head cl2 = Some "wigToBigWig"
    /\ (after = before \/ after = before ++ [cl1] \/ after = before ++ [cl1; cl2]).

(** "The same alignment handles are open." *)
Definition same_handles (s s' : state) : Prop := open_sam s' = open_sam s.

(** * Proofs *)

(** ** Strings, the monad, the file system *)

Lemma append_nil_r (a : string) : a +:+ EmptyString = a.
Proof.
  induction a as [|c a IH]; [reflexivity|].
  change (String c (a +:+ EmptyString) = String c a). by f_equal.
Qed.

Lemma append_assoc (a b c : string) : (a +:+ b) +:+ c = a +:+ b +:+ c.
Proof.
  induction a as [|x a IH]; [reflexivity|].
  change (String x ((a +:+ b) +:+ c) = String x (a +:+ b +:+ c)). by f_equal.
Qed.

Lemma append_not_empty (a : string) c b :
  String.eqb (a +:+ String c b) EmptyString = false.
Proof. by destruct a. Qed.

Lemma set_fs_same s : set_fs (fs s) s = s.
Proof. by destruct s. Qed.

Lemma bind_Ret {A B} (m : M A) (k : A -> M B) s a s' :
  m s = (Ret a, s') -> bind m k s = k a s'.
Proof. intros H. unfold bind. by rewrite H. Qed.

Lemma bind_Raise {A B} (m : M A) (k : A -> M B) s e s' :
  m s = (Raise e, s') -> bind m k s = (Raise e, s').
Proof. intros H. unfold bind. by rewrite H. Qed.

Lemma bind_Ret_inv {A B} (m : M A) (k : A -> M B) s b :
  (bind m k s).1 = Ret b -> exists a s', m s = (Ret a, s') /\ (k a s').1 = Ret b.
Proof.
  unfold bind. destruct (m s) as [[a|e] s']; [eauto | discriminate].
Qed.

Lemma spawned_app a b : spawned (a ++ b) = spawned a ++ spawned b.
Proof. apply omap_app. Qed.

Lemma unlogged_app a b : unlogged (a ++ b) = unlogged a ++ unlogged b.
Proof. apply List.filter_app. Qed.

Lemma for_each_app {A} (l1 l2 : list A) body s :
  for_each (l1 ++ l2) body s
  = match for_each l1 body s with
    | (Ret _, s1) => for_each l2 body s1
    | (Raise e, s1) => (Raise e, s1)
    end.
Proof.
  revert s. induction l1 as [|x l1 IH]; intros s; [reflexivity|].
  cbn [for_each app]. unfold bind.
  destruct (body x s) as [[[]|e] s1]; [apply IH | reflexivity].
Qed.

Lemma for_each_stops {A} (pre post : list A) (x : A) body s s1 e s2 :
  for_each pre body s = (Ret tt, s1) ->
  body x s1 = (Raise e, s2) ->
  for_each (pre ++ x :: post) body s = (Raise e, s2).
Proof.
  intros Hpre Hx. rewrite for_each_app, Hpre. cbn [for_each].
  by apply bind_Raise.
Qed.

(** ** The signal table *)

Lemma load_unix_signals_ok : load_unix_signals = Ret unix_signals_loaded.
Proof. vm_compute. reflexivity. Qed.

Lemma row_ok_inv k row :
  row_ok (k, row) = true ->
  -34 <= k <= -1 /\ exists name disposition description,
      row = [pystr.of_Z (- k); name; disposition; description].
Proof.
  unfold row_ok. cbn [fst snd]. intros H.
  apply andb_prop in H as [Hr Ha]. apply andb_prop in Hr as [H1 H2].
  destruct row as [|a [|n [|d [|ds [|]]]]]; try discriminate.
  apply String.eqb_eq in Ha. subst a. split; [lia|eauto].
Qed.

Lemma rows_ok_lookup (d : gmap Z (list string)) k row :
  forallb row_ok (map_to_list d) = true -> d !! k = Some row -> row_ok (k, row) = true.
Proof.
  intros Hall H. rewrite forallb_forall in Hall. apply Hall.
  apply list_elem_of_In. by apply elem_of_map_to_list.
Qed.

Lemma keys_lookup (d : gmap Z (list string)) k :
  forallb (fun k => bool_decide (is_Some (d !! k))) (seqZ (-34) 34) = true ->
  -34 <= k <= -1 -> is_Some (d !! k).
Proof.
  intros Hall Hk. rewrite forallb_forall in Hall.
  assert (Hin : k ∈ seqZ (-34) 34) by (apply elem_of_seqZ; lia).
  apply list_elem_of_In in Hin. specialize (Hall _ Hin).
  by apply bool_decide_eq_true in Hall.
Qed.

Lemma rows_ok : forallb row_ok (map_to_list unix_signals_loaded) = true.
Proof. vm_compute. reflexivity. Qed.

Lemma keys_present :
  forallb (fun k => bool_decide (is_Some (unix_signals_loaded !! k)))
    (seqZ (-34) 34) = true.
Proof. vm_compute. reflexivity. Qed.

Lemma unix_signals_row k row :
  unix_signals_loaded !! k = Some row ->
  -34 <= k <= -1 /\ exists name disposition description,
      row = [pystr.of_Z (- k); name; disposition; description].
Proof. intros H. apply row_ok_inv. exact (rows_ok_lookup _ _ _ rows_ok H). Qed.

Lemma unix_signals_dom k : is_Some (unix_signals_loaded !! k) <-> -34 <= k <= -1.
Proof.
  split.
  - intros [row H]. apply unix_signals_row in H. tauto.
  - exact (keys_lookup _ _ keys_present).
Qed.

Lemma unix_signals_out_of_range k :
  ~ (-34 <= k <= -1) -> unix_signals_loaded !! k = None.
Proof.
  intros Hk. destruct (unix_signals_loaded !! k) eqn:H; [|done].
  exfalso. apply Hk, unix_signals_dom. eauto.
Qed.

Lemma four_columns_loaded : four_columns unix_signals_loaded.
Proof.
  intros k row H. by destruct (unix_signals_row _ _ H) as [_ (n & d & ds & ->)].
Qed.

Lemma four_columns_empty : four_columns ∅.
Proof. intros k row H. by rewrite lookup_empty in H. Qed.

(** ** The return-code diagnosis of the stage wrappers *)

Lemma diagnosis_loaded cl rc s :
  unix_signals s = unix_signals_loaded ->
  diagnosis_block cl rc s
  = (Ret tt, set_events (events s ++ report cl (classify rc)) s).
Proof.
  intros Hd. unfold classify.
  destruct (Z.eqb_spec rc 0) as [->|Hne]; cbn [negb].
  { unfold ret, report. rewrite app_nil_r. by destruct s. }
  destruct (Z.ltb_spec rc 0) as [Hneg|Hpos].
  - replace (0 <? rc) with false by (symmetry; apply Z.ltb_ge; lia).
    unfold try_except, bind, gets. rewrite Hd.
    destruct (decide (-34 <= rc <= -1)) as [Hin|Hout].
    + replace ((1 <=? - rc) && (- rc <=? 34)) with true
        by (symmetry; apply andb_true_intro; split; apply Z.leb_le; lia).
      destruct (proj2 (unix_signals_dom rc) Hin) as [row Hrow].
      destruct (unix_signals_row _ _ Hrow) as [_ (n & d & ds & ->)].
      unfold signal_info. rewrite Z.opp_involutive, Hrow.
      unfold dict_get. rewrite Hrow. reflexivity.
    + replace ((1 <=? - rc) && (- rc <=? 34)) with false.
      2:{ symmetry. apply andb_false_iff.
          destruct (Z.leb_spec 1 (- rc)); [right; apply Z.leb_gt; lia | by left]. }
      unfold dict_get. rewrite (unix_signals_out_of_range _ Hout). reflexivity.
  - replace (0 <? rc) with true by (symmetry; apply Z.ltb_lt; lia).
    reflexivity.
Qed.

Lemma classify_spec rc :
  (rc = 0 -> classify rc = Success)
  /\ (0 < rc -> classify rc = NonZeroExit rc)
  /\ (rc < 0 -> exists info, classify rc = KilledBySignal (- rc) info
        /\ (is_Some info <-> 1 <= - rc <= 34)
        /\ (forall name disposition description,
              info = Some (name, disposition, description) ->
              unix_signals_loaded !! rc
              = Some [pystr.of_Z (- rc); name; disposition; description])).
Proof.
  unfold classify. repeat split.
  - intros ->. reflexivity.
  - intros H. destruct (Z.eqb_spec rc 0); [lia|].
    destruct (Z.ltb_spec 0 rc); [done|lia].
  - intros H. destruct (Z.eqb_spec rc 0); [lia|].
    destruct (Z.ltb_spec 0 rc); [lia|].
    eexists. split; [reflexivity|].
    destruct (decide (-34 <= rc <= -1)) as [Hin|Hout].
    + replace ((1 <=? - rc) && (- rc <=? 34)) with true
        by (symmetry; apply andb_true_intro; split; apply Z.leb_le; lia).
      destruct (proj2 (unix_signals_dom rc) Hin) as [row Hrow].
      destruct (unix_signals_row _ _ Hrow) as [_ (nm & d & ds & ->)].
      unfold signal_info. rewrite Z.opp_involutive, Hrow. split.
      * split; [lia|eauto].
      * intros ? ? ? [= <- <- <-]. reflexivity.
    + replace ((1 <=? - rc) && (- rc <=? 34)) with false.
      2:{ symmetry. apply andb_false_iff.
          destruct (Z.leb_spec 1 (- rc)); [right; apply Z.leb_gt; lia | by left]. }
      split; [|discriminate]. split; [intros [? [=]]|lia].
Qed.

(** ** The stage wrappers *)

Ltac run_precheck Hw :=
  unfold bind at 1; unfold os_path_isfile at 1, gets at 1;
  match goal with
  | |- context [isfile ?E ?s ?p] => destruct (isfile E s p)
  end;
  (unfold bind at 1; unfold os_access_W at 1, gets at 1; rewrite Hw; cbn [negb]).
Lemma bam_to_wig_launch E s bam wig f1 f2 f3 f4 rc f' :
  unix_signals s = unix_signals_loaded ->
  canWrite E s (stage1_target bam wig) = true ->
  run_tool E (stage1_command bam wig f1 f2 f3 f4) (fs s) = Some (rc, f') ->
  bam_to_wig E bam wig f1 f2 f3 f4 s
  = (Ret (PyTuple [PyBool (rc =? 0); PyInt rc]),
     set_events (events s ++ Spawn (stage1_command bam wig f1 f2 f3 f4)
                   :: report (stage1_command bam wig f1 f2 f3 f4) (classify rc))
       (set_fs f' s)).
Proof.
  intros Hd Hw Hrun. unfold canWrite in Hw.
  unfold bam_to_wig. fold (stage1_target bam wig).
  fold (stage1_command bam wig f1 f2 f3 f4).
  set (cl := stage1_command bam wig f1 f2 f3 f4) in *.
  run_precheck Hw;
    (unfold bind at 1; unfold Popen_communicate at 1; rewrite Hrun;
     unfold bind at 1; rewrite diagnosis_loaded by done;
     unfold ret; cbn [events set_events set_fs fs stdin open_sam unix_signals];
     rewrite <- app_assoc; reflexivity).
Qed.

Lemma wig_to_bigwig_launch E s wig bigwig sizes rc f' :
  unix_signals s = unix_signals_loaded ->
  canWrite E s (stage2_target wig bigwig) = true ->
  run_tool E (stage2_command wig bigwig sizes) (fs s) = Some (rc, f') ->
  wig_to_bigwig E wig bigwig sizes s
  = (Ret (PyTuple [PyBool (rc =? 0); PyInt rc]),
     set_events (events s ++ Spawn (stage2_command wig bigwig sizes)
                   :: report (stage2_command wig bigwig sizes) (classify rc))
       (set_fs f' s)).
Proof.
  intros Hd Hw Hrun. unfold canWrite in Hw.
  unfold wig_to_bigwig. fold (stage2_target wig bigwig).
  fold (stage2_command wig bigwig sizes).
  set (cl := stage2_command wig bigwig sizes) in *.
  run_precheck Hw;
    (unfold bind at 1; unfold Popen_communicate at 1; rewrite Hrun;
     unfold bind at 1; rewrite diagnosis_loaded by done;
     unfold ret; cbn [events set_events set_fs fs stdin open_sam unix_signals];
     rewrite <- app_assoc; reflexivity).
Qed.

Lemma bam_to_wig_denied E s bam wig f1 f2 f3 f4 :
  canWrite E s (stage1_target bam wig) = false ->
  bam_to_wig E bam wig f1 f2 f3 f4 s
  = (Ret (PyBool false),
     set_events (events s ++ [Log CRITICAL (denial_message E s (stage1_target bam wig))]) s).
Proof.
  intros Hw. unfold canWrite in Hw. unfold denial_message.
  unfold bam_to_wig. fold (stage1_target bam wig).
  unfold bind at 1; unfold os_path_isfile at 1, gets at 1.
  destruct (isfile E s (stage1_target bam wig));
    (unfold bind at 1; unfold os_access_W at 1, gets at 1; rewrite Hw; cbn [negb]);
    reflexivity.
Qed.

Lemma wig_to_bigwig_denied E s wig bigwig sizes :
  canWrite E s (stage2_target wig bigwig) = false ->
  wig_to_bigwig E wig bigwig sizes s
  = (Ret (PyBool false),
     set_events (events s ++ [Log CRITICAL (denial_message E s (stage2_target wig bigwig))]) s).
Proof.
  intros Hw. unfold canWrite in Hw. unfold denial_message.
  unfold wig_to_bigwig. fold (stage2_target wig bigwig).
  unfold bind at 1; unfold os_path_isfile at 1, gets at 1.
  destruct (isfile E s (stage2_target wig bigwig));
    (unfold bind at 1; unfold os_access_W at 1, gets at 1; rewrite Hw; cbn [negb]);
    reflexivity.
Qed.

Lemma launch_not_False {A} (m : M Z) (d : Z -> M A) (v : Z -> pyval) s b :
  (forall rc, v rc <> PyBool b) ->
  (bind m (fun rc => bind (d rc) (fun _ => ret (v rc))) s).1 <> Ret (PyBool b).
Proof.
  intros Hv H. apply bind_Ret_inv in H as (rc & s1 & _ & H).
  apply bind_Ret_inv in H as (a & s2 & _ & H).
  unfold ret in H. simpl in H. injection H as H. by apply Hv in H.
Qed.

Lemma bam_to_wig_allowed E s bam wig f1 f2 f3 f4 :
  canWrite E s (stage1_target bam wig) = true ->
  (bam_to_wig E bam wig f1 f2 f3 f4 s).1 <> Ret (PyBool false).
Proof.
  intros Hw. unfold canWrite in Hw.
  unfold bam_to_wig. fold (stage1_target bam wig).
  run_precheck Hw; apply launch_not_False; discriminate.
Qed.

Lemma wig_to_bigwig_allowed E s wig bigwig sizes :
  canWrite E s (stage2_target wig bigwig) = true ->
  (wig_to_bigwig E wig bigwig sizes s).1 <> Ret (PyBool false).
Proof.
  intros Hw. unfold canWrite in Hw.
  unfold wig_to_bigwig. fold (stage2_target wig bigwig).
  run_precheck Hw; apply launch_not_False; discriminate.
Qed.

Lemma bam_to_sizes_open_error E s bam path chr_sizes s1 n s2 :
  get_sizes_from_bam E bam s = (Ret chr_sizes, s1) ->
  open_wb E path s1 = (Raise (IOError n), s2) ->
  bam_to_sizes E bam path s
  = if n =? errno.EACCES
    then (Ret false,
          set_events (events s2 ++ [Log CRITICAL ("Write permission denied: " +:+ abspath E path)]) s2)
    else (Raise (IOError n), s2).
Proof.
  intros Hg Ho. unfold bam_to_sizes.
  unfold bind at 1. rewrite Hg.
  unfold bind at 1. unfold try_except. unfold bind at 1. rewrite Ho.
  destruct (n =? errno.EACCES); reflexivity.
Qed.

(** ** The size-table writer *)

Lemma write_loop (catalog : list (string * Z)) : forall s fp w c,
  fs s !! fp = Some (File w c) ->
  for_each catalog (fun '(chrom, size) =>
      fp_write fp (chrom +:+ TAB +:+ pystr.of_Z size +:+ NL)) s
  = (Ret tt, set_fs (<[fp := File w (c +:+ size_table_text catalog)]> (fs s)) s).
Proof.
  induction catalog as [|[chrom size] rest IH]; intros s fp w c Hfp.
  - simpl. unfold ret. rewrite append_nil_r, insert_id by done.
    by rewrite set_fs_same.
  - cbn [for_each size_table_text]. unfold bind at 1. unfold fp_write at 1.
    rewrite Hfp.
    erewrite IH by (cbn [fs set_fs]; apply lookup_insert_eq).
    cbn [fs set_fs]. rewrite insert_insert_eq.
    unfold size_table_line. cbn [fst snd].
    rewrite !append_assoc. by destruct s.
Qed.

Lemma open_wb_Ret E path s fp s' :
  open_wb E path s = (Ret fp, s') ->
  fp = abspath E path /\ s' = set_fs (<[fp := File true EmptyString]> (fs s)) s.
Proof.
  unfold open_wb. intros H.
  destruct (fs s !! abspath E path) as [[[] ?|? ?]|].
  - by injection H as <- <-.
  - discriminate.
  - discriminate.
  - destruct (fs s !! posixpath.dirname (abspath E path)) as [[? ?|[] ?]|];
      try discriminate. by injection H as <- <-.
Qed.

Lemma bam_to_sizes_written E s bam path chr_sizes s1 fp s2 :
  get_sizes_from_bam E bam s = (Ret chr_sizes, s1) ->
  open_wb E path s1 = (Ret fp, s2) ->
  bam_to_sizes E bam path s
  = (Ret true,
     set_fs (<[abspath E path := File true (size_table_text chr_sizes)]> (fs s1)) s1).
Proof.
  intros Hg Ho. destruct (open_wb_Ret _ _ _ _ _ Ho) as [-> ->].
  unfold bam_to_sizes.
  unfold bind at 1. rewrite Hg.
  unfold bind at 1. unfold try_except. unfold bind at 1. rewrite Ho.
  unfold ret at 1. unfold bind at 1.
  erewrite write_loop by (cbn [fs set_fs]; apply lookup_insert_eq).
  cbn [fs set_fs]. rewrite insert_insert_eq. reflexivity.
Qed.

(** ** Relations every step respects *)

Section preserves.
Context (R : relation state) `{!PreOrder R}.

Lemma preserves_ret {A} (a : A) : preserves R (ret a).
Proof. intros s. reflexivity. Qed.

Lemma preserves_raise {A} e : preserves R (@raise A e).
Proof. intros s. reflexivity. Qed.

Lemma preserves_gets {A} (f : state -> A) : preserves R (gets f).
Proof. intros s. reflexivity. Qed.

Lemma preserves_lift {A} (r : res A) : preserves R (lift r).
Proof. intros s. reflexivity. Qed.

Lemma preserves_bind {A B} (m : M A) (k : A -> M B) :
  preserves R m -> (forall a, preserves R (k a)) -> preserves R (bind m k).
Proof.
  intros Hm Hk s. unfold bind. specialize (Hm s).
  destruct (m s) as [[a|e] s1]; [|exact Hm].
  etransitivity; [exact Hm | apply Hk].
Qed.

Lemma preserves_try_except {A} (m : M A) h :
  preserves R m -> (forall e k, h e = Some k -> preserves R k) ->
  preserves R (try_except m h).
Proof.
  intros Hm Hh s. unfold try_except. specialize (Hm s).
  destruct (m s) as [[a|e] s1]; [exact Hm|].
  destruct (h e) as [k|] eqn:Hk; [|exact Hm].
  etransitivity; [exact Hm | by eapply Hh].
Qed.

Lemma preserves_for_each {A} (l : list A) body :
  (forall x, preserves R (body x)) -> preserves R (for_each l body).
Proof.
  intros Hb. induction l as [|x l IH]; [apply preserves_ret|].
  apply preserves_bind; [apply Hb | intros _; exact IH].
Qed.

End preserves.

(** One step of a proof that a program [preserves] a relation: the
    structure of the program decides the rule; [prim] closes the goals
    about single operations. *)
Ltac preserves_step prim :=
  lazymatch goal with
  | |- preserves _ (bind _ _) => apply preserves_bind; [exact _| |intros ?]
  | |- preserves _ (ret _) => apply preserves_ret; exact _
  | |- preserves _ (raise _) => apply preserves_raise; exact _
  | |- preserves _ (sys_exit _) => apply preserves_raise; exact _
  | |- preserves _ (gets _) => apply preserves_gets; exact _
  | |- preserves _ (lift _) => apply preserves_lift; exact _
  | |- preserves _ (try_except _ _) =>
      apply preserves_try_except;
      [exact _| |let e := fresh "e" in let k := fresh "k" in let H := fresh "H" in
        intros e k H; destruct e; try discriminate H;
        repeat (lazymatch type of H with
                | (if ?b then _ else _) = _ => destruct b
                end; try discriminate H);
        injection H as <-]
  | |- preserves _ (for_each _ _) => apply preserves_for_each; [exact _|intros ?]
  | |- preserves _ (if ?b then _ else _) => destruct b
  | |- preserves _ (match ?x with _ => _ end) => destruct x
  | |- _ => prim
  end.

Ltac preserves_prog prim := repeat preserves_step prim.

#[local] Instance same_signals_preorder : PreOrder same_signals.
Proof. split; [by intros s | intros a b c H1 H2; unfold same_signals in *; congruence]. Qed.

Create HintDb prims.

Ltac prim_fields :=
  let s := fresh "s" in
  intros s;
  repeat autounfold with prims;
  repeat case_match; simplify_eq; simpl; try reflexivity.

#[local] Hint Unfold emit stdout_write stderr_write log_critical log_info
  os_path_isfile os_path_exists os_access_W os_path_getsize os_remove open_wb
  fp_write NamedTemporaryFile_name Popen_communicate import_pysam
  dict_get list_get valid_get indexed_bam_leave ret raise gets lift
  same_signals : prims.

Ltac prim_signals := idtac; first [assumption | prim_fields].

Lemma query_loop_signals q p d lines : preserves same_signals (query_loop q p d lines).
Proof.
  induction lines as [|line rest IH]; cbn [query_loop]; preserves_prog prim_signals.
Qed.

Lemma query_yes_no_signals q d : preserves same_signals (query_yes_no q d).
Proof.
  unfold query_yes_no. preserves_prog ltac:(first [apply query_loop_signals | prim_signals]).
Qed.

Lemma bam_to_wig_signals E a b f1 f2 f3 f4 : preserves same_signals (bam_to_wig E a b f1 f2 f3 f4).
Proof. unfold bam_to_wig. preserves_prog prim_signals. Qed.

Lemma wig_to_bigwig_signals E a b c : preserves same_signals (wig_to_bigwig E a b c).
Proof. unfold wig_to_bigwig. preserves_prog prim_signals. Qed.

Lemma get_sizes_from_bam_signals E bam : preserves same_signals (get_sizes_from_bam E bam).
Proof.
  unfold get_sizes_from_bam, indexed_bam, with_contextmanager, indexed_bam_enter.
  preserves_prog prim_signals.
Qed.

Lemma bam_to_sizes_signals E bam path : preserves same_signals (bam_to_sizes E bam path).
Proof.
  unfold bam_to_sizes.
  preserves_prog ltac:(first [apply get_sizes_from_bam_signals | prim_signals]).
Qed.

Lemma main_signals E bam bw t k f1 f2 f3 f4 : preserves same_signals (main E bam bw t k f1 f2 f3 f4).
Proof.
  unfold main, main_stages.
  preserves_prog ltac:(first [apply query_yes_no_signals | apply bam_to_wig_signals
                             | apply wig_to_bigwig_signals | apply bam_to_sizes_signals
                             | prim_signals]).
Qed.

Lemma dependences_exist_signals E : preserves same_signals (dependences_exist E).
Proof. unfold dependences_exist, probe, call. preserves_prog prim_signals. Qed.

Lemma script_signals E o args : preserves same_signals (script E o args).
Proof.
  unfold script, file_loop, main_kwargs.
  preserves_prog ltac:(first [apply main_signals | apply dependences_exist_signals
                             | prim_signals]).
Qed.

(** ** Before the first subprocess *)

#[local] Instance nothing_launched_preorder : PreOrder nothing_launched.
Proof.
  split; [by intros s | intros a b c [H1 H2] [H3 H4]; split; congruence].
Qed.

Ltac prim_quiet :=
  idtac;
  first [assumption
        | let s := fresh "s" in
          intros s; repeat autounfold with prims; unfold nothing_launched;
          repeat case_match; simplify_eq; simpl;
          rewrite ?spawned_app, ?app_nil_r; by split].

Lemma query_loop_quiet q p d lines : preserves nothing_launched (query_loop q p d lines).
Proof.
  induction lines as [|line rest IH]; cbn [query_loop]; preserves_prog prim_quiet.
Qed.

Lemma query_yes_no_quiet q d : preserves nothing_launched (query_yes_no q d).
Proof.
  unfold query_yes_no. preserves_prog ltac:(first [apply query_loop_quiet | prim_quiet]).
Qed.

Lemma exists_nonempty_run E p {B} (k : bool -> M B) s :
  (present <- os_path_exists E p;;
   nonempty <- (if present then size <- os_path_getsize E p;; ret (0 <? size)
                else ret false);;
   k nonempty) s
  = k (exists_nonempty E s p) s.
Proof.
  unfold exists_nonempty, bind, os_path_exists, gets, exists_, os_path_getsize, ret.
  cbv beta.
  destruct (fs s !! abspath E p) as [[w c|w n]|] eqn:Hl.
  - rewrite bool_decide_eq_true_2 by eauto. cbv beta iota. by rewrite Hl.
  - rewrite bool_decide_eq_true_2 by eauto. cbv beta iota. by rewrite Hl.
  - rewrite bool_decide_eq_false_2; [reflexivity | by intros [? ?]].
Qed.

Lemma main_stages_same_paths E s bam bw t f1 f2 f3 f4 :
  abspath E bam = abspath E (resolved_output bam bw) ->
  main_stages E bam bw t f1 f2 f3 f4 s
  = (Raise (SystemExit (Some 1)),
     set_events (events s ++ [Stderr ("Bad arguments, input and output files are the same." +:+ NL)]) s).
Proof.
  intros H. unfold main_stages. fold (resolved_output bam bw).
  rewrite H, String.eqb_refl. apply bind_Raise. reflexivity.
Qed.

Lemma main_stages_declined E s bam bw t f1 f2 f3 f4 :
  abspath E bam <> abspath E (resolved_output bam bw) ->
  exists_nonempty E s (resolved_output bam bw) = true ->
  (query_yes_no "Output file exists and not empty, overwrite?" (Some "no") s).1 = Ret false ->
  main_stages E bam bw t f1 f2 f3 f4 s
  = (Raise (SystemExit (Some 1)),
     (query_yes_no "Output file exists and not empty, overwrite?" (Some "no") s).2).
Proof.
  intros Hne Hex Hq. unfold main_stages. fold (resolved_output bam bw).
  apply String.eqb_neq in Hne. rewrite Hne.
  unfold bind at 1. unfold ret at 1.
  rewrite exists_nonempty_run, Hex.
  unfold bind at 1. unfold bind at 1.
  destruct (query_yes_no _ _ s) as [r s1]. simpl in Hq. subst r. reflexivity.
Qed.

(** ** Independence from the signal table *)

Lemma indep_ret {A} (a : A) : indep (ret a).
Proof. intros s1 s2 H. split; [reflexivity | exact H]. Qed.

Lemma indep_raise {A} e : indep (@raise A e).
Proof. intros s1 s2 H. split; [reflexivity | exact H]. Qed.

Lemma indep_lift {A} (r : res A) : indep (lift r).
Proof. intros s1 s2 H. split; [reflexivity | exact H]. Qed.

Lemma indep_bind {A B} (m : M A) (k : A -> M B) :
  indep m -> (forall a, indep (k a)) -> indep (bind m k).
Proof.
  intros Hm Hk s1 s2 H. unfold bind. destruct (Hm s1 s2 H) as [Hr Hs].
  destruct (m s1) as [r1 t1], (m s2) as [r2 t2]. simpl in Hr, Hs. subst r2.
  destruct r1 as [a|e]; [by apply Hk | by split].
Qed.

Lemma indep_try_except {A} (m : M A) h :
  indep m -> (forall e k, h e = Some k -> indep k) -> indep (try_except m h).
Proof.
  intros Hm Hh s1 s2 H. unfold try_except. destruct (Hm s1 s2 H) as [Hr Hs].
  destruct (m s1) as [r1 t1], (m s2) as [r2 t2]. simpl in Hr, Hs. subst r2.
  destruct r1 as [a|e]; [by split|].
  destruct (h e) as [k|] eqn:Hk; [by eapply Hh | by split].
Qed.

Lemma indep_for_each {A} (l : list A) body :
  (forall x, indep (body x)) -> indep (for_each l body).
Proof.
  intros Hb. induction l as [|x l IH]; [apply indep_ret|].
  apply indep_bind; [apply Hb | intros _; exact IH].
Qed.

Ltac indep_prim :=
  let s1 := fresh "s" in let s2 := fresh "s" in let H := fresh "H" in
  let Hev := fresh "Hev" in let H1 := fresh "H1" in let H2 := fresh "H2" in
  intros s1 s2 H; destruct s1, s2; unfold agree in *; simpl in H;
  destruct H as (-> & -> & -> & Hev & H1 & H2);
  repeat autounfold with prims; simpl;
  repeat case_match; simplify_eq; simpl;
  rewrite ?unlogged_app, ?Hev; repeat split; auto.

Ltac indep_step prim :=
  lazymatch goal with
  | |- indep (bind _ _) => apply indep_bind; [|intros ?]
  | |- indep (ret _) => apply indep_ret
  | |- indep (raise _) => apply indep_raise
  | |- indep (sys_exit _) => apply indep_raise
  | |- indep (lift _) => apply indep_lift
  | |- indep (try_except _ _) =>
      apply indep_try_except;
      [|let e := fresh "e" in let k := fresh "k" in let H := fresh "H" in
        intros e k H; destruct e; try discriminate H;
        repeat (lazymatch type of H with
                | (if ?b then _ else _) = _ => destruct b
                end; try discriminate H);
        injection H as <-]
  | |- indep (for_each _ _) => apply indep_for_each; intros ?
  | |- indep (if ?b then _ else _) => destruct b
  | |- indep (match ?x with _ => _ end) => destruct x
  | |- _ => prim
  end.

Ltac indep_prog prim := repeat indep_step prim.

Ltac indep_basic := idtac; first [assumption | indep_prim].

Lemma diagnosis_any cl rc s :
  four_columns (unix_signals s) ->
  exists msgs, diagnosis_block cl rc s = (Ret tt, set_events (events s ++ msgs) s)
               /\ unlogged msgs = [].
Proof.
  intros Hd.
  destruct (rc =? 0); cbn [negb].
  { exists []. unfold ret. rewrite app_nil_r. by destruct s. }
  destruct (rc <? 0); [|eexists; split; reflexivity].
  unfold try_except, bind, gets, dict_get.
  destruct (unix_signals s !! rc) as [row|] eqn:Hrow;
    [|eexists; split; reflexivity].
  apply Hd in Hrow.
  destruct row as [|a [|n [|d [|ds [|]]]]]; try discriminate.
  eexists; split; reflexivity.
Qed.

Lemma indep_diagnosis cl rc : indep (diagnosis_block cl rc).
Proof.
  intros s1 s2 H.
  destruct (diagnosis_any cl rc s1) as (m1 & -> & Hm1); [apply H|].
  destruct (diagnosis_any cl rc s2) as (m2 & -> & Hm2); [apply H|].
  split; [reflexivity|].
  destruct H as (? & ? & ? & Hev & ? & ?). repeat split; try done.
  cbn [snd events set_events]. by rewrite !unlogged_app, Hm1, Hm2, Hev.
Qed.

Lemma query_loop_indep q p d lines : indep (query_loop q p d lines).
Proof.
  induction lines as [|line rest IH]; cbn [query_loop]; indep_prog indep_basic.
Qed.

Lemma query_yes_no_indep q d : indep (query_yes_no q d).
Proof.
  unfold query_yes_no. apply indep_bind; [indep_prog indep_basic|]. intros p.
  intros s1 s2 H. unfold bind, gets. rewrite (proj1 (proj2 H)).
  by apply query_loop_indep.
Qed.

Lemma bam_to_wig_indep E a b f1 f2 f3 f4 : indep (bam_to_wig E a b f1 f2 f3 f4).
Proof.
  unfold bam_to_wig.
  repeat first [apply indep_diagnosis | indep_step indep_basic].
Qed.

Lemma wig_to_bigwig_indep E a b c : indep (wig_to_bigwig E a b c).
Proof.
  unfold wig_to_bigwig.
  repeat first [apply indep_diagnosis | indep_step indep_basic].
Qed.

Lemma get_sizes_from_bam_indep E bam : indep (get_sizes_from_bam E bam).
Proof.
  unfold get_sizes_from_bam, indexed_bam, with_contextmanager, indexed_bam_enter.
  indep_prog indep_basic.
Qed.

Lemma bam_to_sizes_indep E bam path : indep (bam_to_sizes E bam path).
Proof.
  unfold bam_to_sizes.
  indep_prog ltac:(first [apply get_sizes_from_bam_indep | indep_basic]).
Qed.

Lemma main_indep E bam bw t k f1 f2 f3 f4 : indep (main E bam bw t k f1 f2 f3 f4).
Proof.
  unfold main, main_stages.
  indep_prog ltac:(first [apply query_yes_no_indep | apply bam_to_wig_indep
                         | apply wig_to_bigwig_indep | apply bam_to_sizes_indep
                         | indep_basic]).
Qed.

Lemma dependences_exist_indep E : indep (dependences_exist E).
Proof. unfold dependences_exist, probe, call. indep_prog indep_basic. Qed.

Lemma script_indep E o args : indep (script E o args).
Proof.
  unfold script, file_loop, main_kwargs.
  indep_prog ltac:(first [apply main_indep | apply dependences_exist_indep
                         | indep_basic]).
Qed.

(** ** The clean-up *)

Lemma os_remove_cases E p s :
  (os_remove E p s = (Ret tt, set_fs (delete (abspath E p) (fs s)) s)
   /\ isfile E s p = true)
  \/ (exists n, os_remove E p s = (Raise (OSError n), s)).
Proof.
  unfold os_remove, isfile.
  destruct (fs s !! abspath E p) as [[w c|w n]|]; [|right; eauto..].
  destruct (fs s !! posixpath.dirname (abspath E p)) as [[?|[] ?]|]; eauto.
Qed.

Lemma os_remove_missing E p s :
  exists_ E s p = false -> os_remove E p s = (Raise (OSError errno.ENOENT), s).
Proof.
  unfold exists_, os_remove. intros H. apply bool_decide_eq_false in H.
  destruct (fs s !! abspath E p); [exfalso; eauto | reflexivity].
Qed.

Lemma exists_after_delete E s k p :
  exists_ E (set_fs (delete k (fs s)) s) p = true -> exists_ E s p = true.
Proof.
  unfold exists_. cbn [fs set_fs]. intros H.
  apply bool_decide_eq_true in H. apply bool_decide_eq_true.
  destruct (decide (k = abspath E p)) as [->|Hne].
  - rewrite lookup_delete_eq in H. by destruct H.
  - by rewrite lookup_delete_ne in H.
Qed.

Lemma main_unfold E bam bw t k f1 f2 f3 f4 s wig sizes s2 :
  main_stages E bam bw t f1 f2 f3 f4 s = (Ret (wig, sizes), s2) ->
  main E bam bw t k f1 f2 f3 f4 s
  = if k then (Ret tt, s2) else (os_remove E sizes ;; os_remove E wig) s2.
Proof.
  intros H. unfold main. rewrite (bind_Ret _ _ _ _ _ H). by destruct k.
Qed.

Lemma cleanup_outcome E wig sizes s2 :
  let r := (os_remove E sizes ;; os_remove E wig) s2 in
  (r.1 = Ret tt
   /\ exists_ E r.2 wig = false /\ exists_ E r.2 sizes = false
   /\ (forall k, k <> abspath E wig -> k <> abspath E sizes -> fs r.2 !! k = fs s2 !! k)
   /\ removable E s2 sizes = true /\ isfile E s2 wig = true)
  \/ (exists n, r.1 = Raise (OSError n)).
Proof.
  cbn zeta. unfold bind.
  destruct (os_remove_cases E sizes s2) as [[H1 Hf1]|[n H1]]; rewrite H1; [|right; eauto].
  set (s3 := set_fs (delete (abspath E sizes) (fs s2)) s2).
  destruct (os_remove_cases E wig s3) as [[H2 Hf2]|[n H2]]; rewrite H2; [|right; eauto].
  left. cbn [fst snd]. split; [done|].
  assert (Hne : abspath E sizes <> abspath E wig).
  { intros Heq. unfold isfile, s3 in Hf2. cbn [fs set_fs] in Hf2.
    by rewrite Heq, lookup_delete_eq in Hf2. }
  unfold exists_, s3. cbn [fs set_fs]. repeat split.
  - apply bool_decide_eq_false. rewrite lookup_delete_eq. by intros [? ?].
  - apply bool_decide_eq_false. rewrite lookup_delete_ne, lookup_delete_eq by done.
    by intros [? ?].
  - intros k Hk1 Hk2. by rewrite !lookup_delete_ne.
  - unfold removable. by rewrite H1.
  - unfold isfile, s3 in Hf2. cbn [fs set_fs] in Hf2.
    by rewrite lookup_delete_ne in Hf2.
Qed.

Lemma cleanup_missing E wig sizes s2 :
  exists_ E s2 sizes = false \/ exists_ E s2 wig = false ->
  exists n, ((os_remove E sizes ;; os_remove E wig) s2).1 = Raise (OSError n).
Proof.
  intros H.
  destruct (cleanup_outcome E wig sizes s2) as [(_ & _ & _ & _ & Hs & Hw)|H']; [|exact H'].
  exfalso. destruct H as [H|H].
  - unfold removable in Hs. by rewrite (os_remove_missing _ _ _ H) in Hs.
  - unfold isfile in Hw. unfold exists_ in H. apply bool_decide_eq_false in H.
    destruct (fs s2 !! abspath E wig); [apply H; eauto | done].
Qed.

(** ** The file loop and the script *)

Lemma file_loop_exit E o pre bam post s s1 code s2 :
  for_each pre (main_kwargs E o) s = (Ret tt, s1) ->
  main_kwargs E o bam s1 = (Raise (SystemExit code), s2) ->
  file_loop E o (pre ++ bam :: post) s = (Raise (SystemExit code), s2).
Proof.
  intros Hpre Hx. unfold file_loop, try_except.
  by rewrite (for_each_stops _ _ _ _ _ _ _ _ Hpre Hx).
Qed.

Lemma stage1_target_default bam :
  stage1_target bam ((posixpath.splitext bam).1 +:+ ".wig")
  = (posixpath.splitext bam).1 +:+ ".wig".
Proof. unfold stage1_target. by rewrite append_not_empty. Qed.

Lemma bind_assoc {A B C} (m : M A) (k : A -> M B) (h : B -> M C) s :
  bind (bind m k) h s = bind m (fun a => bind (k a) h) s.
Proof. unfold bind. by destruct (m s) as [[a|e] s']. Qed.

Lemma bind_ret_l {A B} (a : A) (k : A -> M B) s : bind (ret a) k s = k a s.
Proof. reflexivity. Qed.

Lemma bind_ext {A B} (m : M A) (k k' : A -> M B) s :
  (forall a s', k a s' = k' a s') -> bind m k s = bind m k' s.
Proof. intros H. unfold bind. destruct (m s) as [[a|e] s']; [apply H | done]. Qed.

(** [main], up to the clean-up, is its four parts with an exit after
    each. *)
Lemma main_stages_segments E bam bw t f1 f2 f3 f4 s :
  main_stages E bam bw t f1 f2 f3 f4 s
  = (main_checks E bam (resolved_output bam bw) ;;
     stage1 <- main_stage1 E bam t f1 f2 f3 f4 ;;
     (if negb (truthy stage1.2) then sys_exit (Some 1) else ret tt) ;;
     sizes <- main_sizes E bam t ;;
     (if negb sizes.2 then stdout_write (" Failed" +:+ NL) ;; sys_exit (Some 1)
      else ret tt) ;;
     r3 <- main_stage2 E stage1.1 (resolved_output bam bw) sizes.1 ;;
     (if negb (truthy r3) then stdout_write (" Failed" +:+ NL) ;; sys_exit (Some 1)
      else ret tt) ;;
     stdout_write (" Done" +:+ NL) ;;
     ret (stage1.1, sizes.1)) s.
Proof.
  unfold main_stages, main_checks, main_stage1, main_sizes, main_stage2.
  fold (resolved_output bam bw).
  repeat first [ rewrite bind_assoc
               | rewrite bind_ret_l; cbn [fst snd]
               | apply bind_ext; intros ].
  reflexivity.
Qed.

Lemma pipeline_fails_exit E o bam s :
  pipeline_fails E o bam s ->
  exists s', main_kwargs E o bam s = (Raise (SystemExit (Some 1)), s').
Proof.
  intros H. unfold main_kwargs, main.
  destruct H as [H|Hne Hex Hq|s1 wig r1 s2 Hc H1 Hr1
                |s1 wig r1 s2 sizes s3 Hc H1 Hr1 H2
                |s1 wig r1 s2 sizes s3 r3 s4 Hc H1 Hr1 H2 H3 Hr3].
  - eexists. apply bind_Raise. by apply main_stages_same_paths.
  - eexists. apply bind_Raise. by apply main_stages_declined.
  - eexists. apply bind_Raise. rewrite main_stages_segments.
    rewrite (bind_Ret _ _ _ _ _ Hc), (bind_Ret _ _ _ _ _ H1).
    cbn [fst snd]. rewrite Hr1. reflexivity.
  - eexists. apply bind_Raise. rewrite main_stages_segments.
    rewrite (bind_Ret _ _ _ _ _ Hc), (bind_Ret _ _ _ _ _ H1).
    cbn [fst snd]. rewrite Hr1. cbn [negb]. rewrite bind_ret_l.
    rewrite (bind_Ret _ _ _ _ _ H2). reflexivity.
  - eexists. apply bind_Raise. rewrite main_stages_segments.
    rewrite (bind_Ret _ _ _ _ _ Hc), (bind_Ret _ _ _ _ _ H1).
    cbn [fst snd]. rewrite Hr1. cbn [negb]. rewrite bind_ret_l.
    rewrite (bind_Ret _ _ _ _ _ H2). cbn [fst snd negb]. rewrite bind_ret_l.
    rewrite (bind_Ret _ _ _ _ _ H3). rewrite Hr3. reflexivity.
Qed.

Lemma script_file_loop E o args s0 s :
  args <> [] ->
  dependences_exist E s0 = (Ret true, s) ->
  script E o args s0 = file_loop E o args s.
Proof.
  intros Hargs Hdep. unfold script.
  destruct args as [|a args]; [done|].
  rewrite bool_decide_eq_false_2 by done.
  unfold bind at 1. unfold ret at 1.
  rewrite (bind_Ret _ _ _ _ _ Hdep). reflexivity.
Qed.

Lemma script_missing_dependency E o args s0 s :
  args <> [] ->
  dependences_exist E s0 = (Ret false, s) ->
  script E o args s0 = (Raise (SystemExit None), s).
Proof.
  intros Hargs Hdep. unfold script.
  destruct args as [|a args]; [done|].
  rewrite bool_decide_eq_false_2 by done.
  unfold bind at 1. unfold ret at 1.
  rewrite (bind_Ret _ _ _ _ _ Hdep). reflexivity.
Qed.

(** * The claims *)


(** C2. For every return code [rc] of the subprocess, a stage wrapper
    whose permission check passes returns the pair [(rc == 0, rc)] and
    logs what the classification of [rc] asks for: nothing when
    [rc = 0]; the status when [rc > 0]; when [rc < 0] the signal number
    [-rc], followed by the name, disposition and description of the
    signal exactly when [-rc] is between 1 and 34, the bare number
    otherwise.  [bam_to_wig] and [wig_to_bigwig] do this in the same
    way. *)
Theorem C2_exit_status_classification (E : env) :
  (forall s bam wig f1 f2 f3 f4 rc f',
      unix_signals s = unix_signals_loaded ->
      canWrite E s (stage1_target bam wig) = true ->
      run_tool E (stage1_command bam wig f1 f2 f3 f4) (fs s) = Some (rc, f') ->
      bam_to_wig E bam wig f1 f2 f3 f4 s
      = (Ret (PyTuple [PyBool (rc =? 0); PyInt rc]),
         set_events (events s ++ Spawn (stage1_command bam wig f1 f2 f3 f4)
                       :: report (stage1_command bam wig f1 f2 f3 f4) (classify rc))
           (set_fs f' s)))
  /\ (forall s wig bigwig sizes rc f',
      unix_signals s = unix_signals_loaded ->
      canWrite E s (stage2_target wig bigwig) = true ->
      run_tool E (stage2_command wig bigwig sizes) (fs s) = Some (rc, f') ->
      wig_to_bigwig E wig bigwig sizes s
      = (Ret (PyTuple [PyBool (rc =? 0); PyInt rc]),
         set_events (events s ++ Spawn (stage2_command wig bigwig sizes)
                       :: report (stage2_command wig bigwig sizes) (classify rc))
           (set_fs f' s)))
  /\ (forall rc,
      (rc = 0 -> classify rc = Success)
      /\ (0 < rc -> classify rc = NonZeroExit rc)
      /\ (rc < 0 -> exists info, classify rc = KilledBySignal (- rc) info
            /\ (is_Some info <-> 1 <= - rc <= 34)
            /\ (forall name disposition description,
                  info = Some (name, disposition, description) ->
                  unix_signals_loaded !! rc
                  = Some [pystr.of_Z (- rc); name; disposition; description]))).
Proof.
  split; [|split].
  - intros. by apply bam_to_wig_launch.
  - intros. by apply wig_to_bigwig_launch.
  - apply classify_spec.
Qed.

(** An instance: stage 1 killed by signal 9. *)
Lemma C2_witness :
  let E := World.make World.stage1_killed in
  let s := World.start [] in
  let cl := ["rsem-bam2wig"; "sample.bam"; "sample.wig"; "sample"; "--no-fractional-weight"] in
  bam_to_wig E "sample.bam" "sample.wig" false false false false s
  = (Ret (PyTuple [PyBool false; PyInt (-9)]),
     set_events
       [Spawn cl;
        Log CRITICAL (DQ +:+ "rsem-bam2wig sample.bam sample.wig sample --no-fractional-weight"
                      +:+ DQ +:+ " was terminated by signal 9: SIGKILL, Exit, Killed")]
       (set_fs (<["/work/sample.wig" := File true "coverage"]> World.disk) s)).
Proof.
  cbv zeta.
  refine (eq_trans
    (proj1 (C2_exit_status_classification (World.make World.stage1_killed))
       (World.start []) "sample.bam" "sample.wig" false false false false (-9)
       (<["/work/sample.wig" := File true "coverage"]> World.disk) _ _ _) _).
  - reflexivity.
  - vm_compute. reflexivity.
  - reflexivity.
  - reflexivity.
Defined.


Lemma cleanup_succeeds E wig sizes s2 :
  removable E s2 sizes = true -> removable E s2 wig = true ->
  abspath E wig <> abspath E sizes ->
  ((os_remove E sizes ;; os_remove E wig) s2).1 = Ret tt.
Proof.
  unfold removable. intros Hs Hw Hne. unfold bind.
  destruct (os_remove_cases E sizes s2) as [[H1 Hf1]|[n H1]];
    rewrite H1 in Hs |- *; [|discriminate].
  unfold os_remove in Hw |- *. cbn [fs set_fs].
  rewrite lookup_delete_ne by done.
  destruct (fs s2 !! abspath E wig) as [[w c|w n]|]; try discriminate.
  destruct (decide (abspath E sizes = posixpath.dirname (abspath E wig))) as [Heq|Hd].
  - rewrite <- Heq, lookup_delete_eq. reflexivity.
  - rewrite lookup_delete_ne by done.
    by destruct (fs s2 !! posixpath.dirname (abspath E wig)) as [[?|[] ?]|].
Qed.

(** C5. When the resolved output path is the resolved input path, or
    the output exists, is not empty, and the answer to the overwrite
    question (default "no") is a decline, [main] ends in [sys.exit(1)]:
    the exit status is 1, no subprocess was launched and no file was
    touched. *)
Theorem C5_precondition_exit (E : env) s bam bw t k f1 f2 f3 f4 :
  abspath E bam = abspath E (resolved_output bam bw)
  \/ (exists_nonempty E s (resolved_output bam bw) = true
      /\ (query_yes_no "Output file exists and not empty, overwrite?" (Some "no") s).1
         = Ret false) ->
  exists s', main E bam bw t k f1 f2 f3 f4 s = (Raise (SystemExit (Some 1)), s')
             /\ exit_status (main E bam bw t k f1 f2 f3 f4 s).1 = 1
             /\ spawned (events s') = spawned (events s)
             /\ fs s' = fs s.
Proof.
  intros H.
  assert (Hst : exists s', main_stages E bam bw t f1 f2 f3 f4 s
                           = (Raise (SystemExit (Some 1)), s')
                           /\ nothing_launched s s').
  { destruct (decide (abspath E bam = abspath E (resolved_output bam bw))) as [Heq|Hne].
    - eexists. split; [by apply main_stages_same_paths|].
      split; cbn; [done|]. rewrite spawned_app. cbn. by rewrite app_nil_r.
    - destruct H as [H|[Hex Hq]]; [done|].
      eexists. split; [by apply main_stages_declined|]. apply query_yes_no_quiet. }
  destruct Hst as (s' & Hst & Hfs & Hsp).
  assert (Hmain : main E bam bw t k f1 f2 f3 f4 s = (Raise (SystemExit (Some 1)), s'))
    by (by apply bind_Raise).
  exists s'. rewrite Hmain. done.
Qed.

(** An instance: an old output, and the user just hits Enter. *)
Lemma C5_witness :
  exists s', main (World.make World.healthy) "old.bam" None false false
               false false false false (World.start [EmptyString])
             = (Raise (SystemExit (Some 1)), s')
             /\ exit_status (main (World.make World.healthy) "old.bam" None false false
                               false false false false (World.start [EmptyString])).1 = 1
             /\ spawned (events s') = spawned (events (World.start [EmptyString]))
             /\ fs s' = fs (World.start [EmptyString]).
Proof.
  apply (C5_precondition_exit (World.make World.healthy)).
  right. split; vm_compute; reflexivity.
Defined.


(** C6, amended. After a run in which both stages succeed (the stages
    of [main] return): with keep-intermediates set, [main] returns and
    deletes nothing; without it, either both intermediates are removed
    and do not exist afterwards (this is what happens when both can be
    removed), or the removal fails and the [OSError] of [os.remove]
    leaves [main] uncaught (this is what happens when one of them is
    already gone). *)
Theorem C6_cleanup_after_success (E : env) bam bw t f1 f2 f3 f4 s wig sizes s2 :
  main_stages E bam bw t f1 f2 f3 f4 s = (Ret (wig, sizes), s2) ->
  main E bam bw t true f1 f2 f3 f4 s = (Ret tt, s2)
  /\ (let r := main E bam bw t false f1 f2 f3 f4 s in
      (r.1 = Ret tt
       /\ exists_ E r.2 wig = false /\ exists_ E r.2 sizes = false
       /\ (forall k, k <> abspath E wig -> k <> abspath E sizes ->
                     fs r.2 !! k = fs s2 !! k))
      \/ (exists n, r.1 = Raise (OSError n)))
  /\ (removable E s2 sizes = true -> removable E s2 wig = true ->
      abspath E wig <> abspath E sizes ->
      (main E bam bw t false f1 f2 f3 f4 s).1 = Ret tt)
  /\ (exists_ E s2 sizes = false \/ exists_ E s2 wig = false ->
      exists n, (main E bam bw t false f1 f2 f3 f4 s).1 = Raise (OSError n)).
Proof.
  intros H. rewrite !(main_unfold _ _ _ _ _ _ _ _ _ _ _ _ _ H).
  split; [reflexivity|]. split; [|split].
  - destruct (cleanup_outcome E wig sizes s2) as [(H1 & H2 & H3 & H4 & _)|H']; eauto.
  - apply cleanup_succeeds.
  - apply cleanup_missing.
Qed.

(** An instance: the default run and the same run with keep-intermediates. *)
Lemma C6_witness :
  let E := World.make World.healthy in
  let s := World.start [] in
  let run := main E "sample.bam" None false in
  run true false false false false s
  = (Ret tt, (main_stages E "sample.bam" None false false false false false s).2)
  /\ (run false false false false false s).1 = Ret tt
  /\ exists_ E (run false false false false false s).2 "sample.wig" = false
  /\ exists_ E (run false false false false false s).2 "sample.sizes" = false
  /\ exists_ E (run true false false false false s).2 "sample.wig" = true
  /\ exists_ E (run true false false false false s).2 "sample.sizes" = true.
Proof.
  cbv zeta.
  pose proof (C6_cleanup_after_success (World.make World.healthy) "sample.bam" None
                false false false false false (World.start [])
                "sample.wig" "sample.sizes"
                (main_stages (World.make World.healthy) "sample.bam" None false
                   false false false false (World.start [])).2) as H.
  destruct H as (Hkeep & Hdel & Hok & _); [vm_compute; reflexivity|].
  split; [exact Hkeep|].
  split; [apply Hok; [vm_compute; reflexivity..|] |].
  { apply String.eqb_neq. vm_compute. reflexivity. }
  repeat split; vm_compute; reflexivity.
Defined.

(** C6 fails as stated: both stages succeed, the coverage file is gone
    when the clean-up starts, and the failed removal ends the run with
    an uncaught [OSError] and exit status 1. *)
Lemma C6_counterexample :
  let E := World.make World.coverage_vanishes in
  let r := main E "sample.bam" None false false false false false false (World.start []) in
  (* both stages ran and returned 0: nothing was logged, the track exists *)
  spawned (events r.2)
  = [["rsem-bam2wig"; "sample.bam"; "sample.wig"; "sample"; "--no-fractional-weight"];
     ["wigToBigWig"; "sample.wig"; "sample.sizes"; "sample.bigwig"]]
  /\ List.filter is_log (events r.2) = []
  /\ fs r.2 !! "/work/sample.bigwig" = Some (File true "track")
  (* yet the run ends in an uncaught OSError, exit status 1 *)
  /\ r.1 = Raise (OSError errno.ENOENT)
  /\ exit_status r.1 = 1.
Proof. vm_compute. repeat split; reflexivity. Qed.

(** C3, amended. In a multi-file invocation, a precondition violation
    (identical input and output paths, declined overwrite) or a
    permission denial (at stage 1, at the size-table writer or at
    stage 2) in one input file's pipeline makes [main] call
    [sys.exit(1)]; the file loop catches only [KeyboardInterrupt], so
    the whole invocation ends there with exit status 1, in the state the
    failing pipeline left: the input files that follow are not
    processed. The same holds of every [SystemExit] that leaves [main],
    whatever its code. *)
Theorem C3_exit_ends_invocation (E : env) o pre bam post s0 s s1 :
  dependences_exist E s0 = (Ret true, s) ->
  for_each pre (main_kwargs E o) s = (Ret tt, s1) ->
  (pipeline_fails E o bam s1 ->
   exists s2, main_kwargs E o bam s1 = (Raise (SystemExit (Some 1)), s2)
              /\ script E o (pre ++ bam :: post) s0 = (Raise (SystemExit (Some 1)), s2)
              /\ exit_status (script E o (pre ++ bam :: post) s0).1 = 1)
  /\ (forall code s2,
        main_kwargs E o bam s1 = (Raise (SystemExit code), s2) ->
        script E o (pre ++ bam :: post) s0 = (Raise (SystemExit code), s2)).
Proof.
  intros Hdep Hpre.
  assert (Hexit : forall code s2,
             main_kwargs E o bam s1 = (Raise (SystemExit code), s2) ->
             script E o (pre ++ bam :: post) s0 = (Raise (SystemExit code), s2)).
  { intros code s2 Hmain.
    rewrite (script_file_loop E o _ s0 s); [|by destruct pre|done].
    by eapply file_loop_exit. }
  split; [|exact Hexit].
  intros Hfail. destruct (pipeline_fails_exit _ _ _ _ Hfail) as [s2 Hmain].
  exists s2. split; [exact Hmain|].
  split; [by apply Hexit|]. by rewrite (Hexit _ _ Hmain).
Qed.

(** Two instances. The track of the first input is to go into a
    read-only directory: both tools' turn comes, stage 2 is denied. The
    first input lies in a read-only directory and its track is to
    replace an existing one: the overwrite is accepted, stage 1 is
    denied. Either way the input that follows is not processed. *)
Lemma C3_witness :
  let E := World.make World.healthy in
  (exists s2,
      main_kwargs E World.into_locked "sample.bam" (dependences_exist E (World.start [])).2
      = (Raise (SystemExit (Some 1)), s2)
      /\ script E World.into_locked ([] ++ "sample.bam" :: ["other.bam"]) (World.start [])
         = (Raise (SystemExit (Some 1)), s2)
      /\ exit_status (script E World.into_locked ([] ++ "sample.bam" :: ["other.bam"])
                        (World.start [])).1 = 1)
  /\ (exists s2,
         main_kwargs E World.over_old "ro/locked.bam"
           (dependences_exist E (World.start ["y"])).2
         = (Raise (SystemExit (Some 1)), s2)
         /\ script E World.over_old ([] ++ "ro/locked.bam" :: ["sample.bam"])
              (World.start ["y"])
            = (Raise (SystemExit (Some 1)), s2)
         /\ exit_status (script E World.over_old ([] ++ "ro/locked.bam" :: ["sample.bam"])
                           (World.start ["y"])).1 = 1).
Proof.
  cbv zeta. split.
  - apply (C3_exit_ends_invocation (World.make World.healthy) World.into_locked
             [] "sample.bam" ["other.bam"] (World.start [])
             (dependences_exist (World.make World.healthy) (World.start [])).2
             (dependences_exist (World.make World.healthy) (World.start [])).2).
    + vm_compute. reflexivity.
    + reflexivity.
    + eapply stage2_permission_denied.
      * vm_compute. reflexivity.
      * vm_compute. reflexivity.
      * reflexivity.
      * vm_compute. reflexivity.
      * vm_compute. reflexivity.
      * reflexivity.
  - apply (C3_exit_ends_invocation (World.make World.healthy) World.over_old
             [] "ro/locked.bam" ["sample.bam"] (World.start ["y"])
             (dependences_exist (World.make World.healthy) (World.start ["y"])).2
             (dependences_exist (World.make World.healthy) (World.start ["y"])).2).
    + vm_compute. reflexivity.
    + reflexivity.
    + eapply stage1_permission_denied.
      * vm_compute. reflexivity.
      * vm_compute. reflexivity.
      * reflexivity.
Defined.

(** C3 fails as stated: the first of two inputs fails, and the second
    one, which an isolated loop would have converted, is never
    started. *)
Lemma C3_counterexample :
  let E := World.make World.healthy in
  let args := ["ro/locked.bam"; "sample.bam"] in
  let r := script E World.defaults args (World.start []) in
  let isolated := (dependences_exist E ;; isolated_file_loop E World.defaults args)
                    (World.start []) in
  (* the first pipeline fails on a permission denial, and the run ends *)
  r.1 = Raise (SystemExit (Some 1))
  /\ spawned (events r.2) = [["wigToBigWig"]; ["rsem-bam2wig"]]
  /\ fs r.2 !! "/work/sample.bigwig" = None
  (* with isolated pipelines the second file would have been converted *)
  /\ isolated.1 = Ret tt
  /\ fs isolated.2 !! "/work/sample.bigwig" = Some (File true "track").
Proof. vm_compute. repeat split; reflexivity. Qed.


(** C7. When the catalog is read and the size-table file can be
    opened, [bam_to_sizes] returns [True] and the file holds exactly one
    line [name<TAB>length] per reference, in catalog order, with nothing
    before; for the catalog [("chr1", 1000), ("chr2", 2000)] this is
    [chr1<TAB>1000<NL>chr2<TAB>2000<NL>]. *)
Theorem C7_size_table_format (E : env) :
  (forall s bam path chr_sizes s1 fp s2,
      get_sizes_from_bam E bam s = (Ret chr_sizes, s1) ->
      open_wb E path s1 = (Ret fp, s2) ->
      bam_to_sizes E bam path s
      = (Ret true,
         set_fs (<[abspath E path := File true (size_table_text chr_sizes)]> (fs s1)) s1))
  /\ size_table_text [("chr1", 1000); ("chr2", 2000)]
     = "chr1" +:+ TAB +:+ "1000" +:+ NL +:+ "chr2" +:+ TAB +:+ "2000" +:+ NL.
Proof.
  split; [|reflexivity]. intros. by eapply bam_to_sizes_written.
Qed.

(** An instance: the size table of the sample alignment. *)
Lemma C7_witness :
  let E := World.make World.healthy in
  let r := bam_to_sizes E "sample.bam" "sample.sizes" (World.start []) in
  r.1 = Ret true
  /\ fs r.2 !! "/work/sample.sizes"
     = Some (File true ("chr1" +:+ TAB +:+ "1000" +:+ NL
                        +:+ "chr2" +:+ TAB +:+ "2000" +:+ NL)).
Proof.
  cbv zeta.
  rewrite (proj1 (C7_size_table_format (World.make World.healthy))
             (World.start []) "sample.bam" "sample.sizes"
             [("chr1", 1000); ("chr2", 2000)]
             (get_sizes_from_bam (World.make World.healthy) "sample.bam" (World.start [])).2
             "/work/sample.sizes"
             (open_wb (World.make World.healthy) "sample.sizes"
                (get_sizes_from_bam (World.make World.healthy) "sample.bam"
                   (World.start [])).2).2).
  - split; vm_compute; reflexivity.
  - vm_compute. reflexivity.
  - vm_compute. reflexivity.
Defined.

(** C8. The permission check of both stage wrappers is [canWrite]:
    write permission on the target itself when it exists as a file, on
    its directory otherwise.  When it fails the wrapper logs the denial
    and returns [False] without raising and without launching anything;
    when it passes the wrapper does not return [False].  In the
    size-table writer an [IOError] of [open] with [EACCES] is logged and
    gives [False]; with any other error number it propagates. *)
Theorem C8_permission_precheck (E : env) :
  (forall s bam wig f1 f2 f3 f4,
      if canWrite E s (stage1_target bam wig)
      then (bam_to_wig E bam wig f1 f2 f3 f4 s).1 <> Ret (PyBool false)
      else bam_to_wig E bam wig f1 f2 f3 f4 s
           = (Ret (PyBool false),
              set_events
                (events s ++ [Log CRITICAL (denial_message E s (stage1_target bam wig))])
                s))
  /\ (forall s wig bigwig sizes,
      if canWrite E s (stage2_target wig bigwig)
      then (wig_to_bigwig E wig bigwig sizes s).1 <> Ret (PyBool false)
      else wig_to_bigwig E wig bigwig sizes s
           = (Ret (PyBool false),
              set_events
                (events s ++ [Log CRITICAL (denial_message E s (stage2_target wig bigwig))])
                s))
  /\ (forall s bam path chr_sizes s1 n s2,
      get_sizes_from_bam E bam s = (Ret chr_sizes, s1) ->
      open_wb E path s1 = (Raise (IOError n), s2) ->
      bam_to_sizes E bam path s
      = if n =? errno.EACCES
        then (Ret false,
              set_events
                (events s2 ++ [Log CRITICAL ("Write permission denied: " +:+ abspath E path)])
                s2)
        else (Raise (IOError n), s2)).
Proof.
  split; [|split].
  - intros. destruct (canWrite E s (stage1_target bam wig)) eqn:Hw.
    + by apply bam_to_wig_allowed.
    + by apply bam_to_wig_denied.
  - intros. destruct (canWrite E s (stage2_target wig bigwig)) eqn:Hw.
    + by apply wig_to_bigwig_allowed.
    + by apply wig_to_bigwig_denied.
  - intros. by eapply bam_to_sizes_open_error.
Qed.

(** An instance: the size table in a read-only, then in a missing directory. *)
Lemma C8_witness :
  let E := World.make World.healthy in
  let s1 := (get_sizes_from_bam E "sample.bam" (World.start [])).2 in
  (* a read-only directory: permission denied, the writer returns False *)
  bam_to_sizes E "sample.bam" "ro/sample.sizes" (World.start [])
  = (Ret false,
     set_events
       (events s1 ++ [Log CRITICAL "Write permission denied: /work/ro/sample.sizes"]) s1)
  (* a directory that does not exist: the error propagates *)
  /\ bam_to_sizes E "sample.bam" "nowhere/sample.sizes" (World.start [])
     = (Raise (IOError errno.ENOENT), s1).
Proof.
  cbv zeta. split.
  - refine (eq_trans
      (proj2 (proj2 (C8_permission_precheck (World.make World.healthy)))
         (World.start []) "sample.bam" "ro/sample.sizes"
         [("chr1", 1000); ("chr2", 2000)]
         (get_sizes_from_bam (World.make World.healthy) "sample.bam" (World.start [])).2
         errno.EACCES
         (get_sizes_from_bam (World.make World.healthy) "sample.bam" (World.start [])).2
         _ _) _); vm_compute; reflexivity.
  - refine (eq_trans
      (proj2 (proj2 (C8_permission_precheck (World.make World.healthy)))
         (World.start []) "sample.bam" "nowhere/sample.sizes"
         [("chr1", 1000); ("chr2", 2000)]
         (get_sizes_from_bam (World.make World.healthy) "sample.bam" (World.start [])).2
         errno.ENOENT
         (get_sizes_from_bam (World.make World.healthy) "sample.bam" (World.start [])).2
         _ _) _); vm_compute; reflexivity.
Defined.

(** C10. The signal table built at module load has exactly the keys -34
    to -1; each row has four columns, the first one the decimal signal
    number, that is the negated key.  No run of the script changes the
    table.  Its content decides no control flow: two runs of the script
    that differ only in the table (both with four-column rows) end with
    the same result, the same files, the same input left, the same open
    handles, and the same output apart from the log records. *)
Theorem C10_signal_registry :
  load_unix_signals = Ret unix_signals_loaded
  /\ (forall k, is_Some (unix_signals_loaded !! k) <-> -34 <= k <= -1)
  /\ (forall k row, unix_signals_loaded !! k = Some row ->
        length row = 4%nat /\ row !! 0%nat = Some (pystr.of_Z (- k)))
  /\ (forall E o args s, unix_signals (script E o args s).2 = unix_signals s)
  /\ (forall E o args s d1 d2,
        four_columns d1 -> four_columns d2 ->
        let r1 := script E o args (set_unix_signals d1 s) in
        let r2 := script E o args (set_unix_signals d2 s) in
        r1.1 = r2.1 /\ fs r1.2 = fs r2.2 /\ stdin r1.2 = stdin r2.2
        /\ open_sam r1.2 = open_sam r2.2
        /\ unlogged (events r1.2) = unlogged (events r2.2)).
Proof.
  split; [exact load_unix_signals_ok|].
  split; [exact unix_signals_dom|].
  split; [|split].
  - intros k row H. by destruct (unix_signals_row _ _ H) as [_ (n & d & ds & ->)].
  - intros E o args s. apply script_signals.
  - intros E o args s d1 d2 H1 H2 r1 r2.
    destruct (script_indep E o args (set_unix_signals d1 s) (set_unix_signals d2 s))
      as (Hr & Hf & Hi & Ho & He & _); [by repeat split|].
    by repeat split.
Qed.

(** An instance: the loaded table against the empty one, stage 1 killed. *)
Lemma C10_witness :
  let E := World.make World.stage1_killed in
  let r1 := script E World.defaults ["sample.bam"]
              (set_unix_signals unix_signals_loaded (World.start [])) in
  let r2 := script E World.defaults ["sample.bam"]
              (set_unix_signals ∅ (World.start [])) in
  r1.1 = r2.1 /\ fs r1.2 = fs r2.2 /\ stdin r1.2 = stdin r2.2
  /\ open_sam r1.2 = open_sam r2.2
  /\ unlogged (events r1.2) = unlogged (events r2.2).
Proof.
  exact (proj2 (proj2 (proj2 (proj2 C10_signal_registry)))
           (World.make World.stage1_killed) World.defaults ["sample.bam"]
           (World.start []) unix_signals_loaded ∅
           four_columns_loaded four_columns_empty).
Defined.

(** What a stage wrapper returns once the tool ran is true in Python. *)
Lemma stage_tuple_truthy b rc : truthy (PyTuple [PyBool b; PyInt rc]) = true.
Proof. reflexivity. Qed.

(** C1, evaluated where the code departs from it.  A stage wrapper
    returns the pair [(rc == 0, rc)], and a pair is true in Python, so
    [if not bam_to_wig(...)] does not see a failed subprocess.  With
    stage 1 returning 1 the failure is logged, the size table is written,
    stage 2 runs, and the script ends with status 0; with stage 2
    returning 255 the script ends with status 0 as well. *)
Theorem C1_stage_failure_not_detected :
  let r1 := script (World.make World.stage1_fails) World.defaults ["sample.bam"]
              (World.start []) in
  let r2 := script (World.make World.stage2_fails) World.defaults ["sample.bam"]
              (World.start []) in
  (* stage 1 exits with 1: it is logged, and the run goes on to stage 2 and ends well *)
  spawned (events r1.2)
  = [["wigToBigWig"]; ["rsem-bam2wig"];
     ["rsem-bam2wig"; "sample.bam"; "sample.wig"; "sample"; "--no-fractional-weight"];
     ["wigToBigWig"; "sample.wig"; "sample.sizes"; "sample.bigwig"]]
  /\ List.filter is_log (events r1.2)
     = [Log CRITICAL (DQ +:+ "rsem-bam2wig sample.bam sample.wig sample --no-fractional-weight"
                      +:+ DQ +:+ " terminated with non-zero return code: 1")]
  /\ r1.1 = Ret tt /\ exit_status r1.1 = 0
  (* stage 2 exits with 255: it is logged, and the run ends well *)
  /\ List.filter is_log (events r2.2)
     = [Log CRITICAL (DQ +:+ "wigToBigWig sample.wig sample.sizes sample.bigwig"
                      +:+ DQ +:+ " terminated with non-zero return code: 255")]
  /\ r2.1 = Ret tt /\ exit_status r2.1 = 0.
Proof. vm_compute. repeat split; reflexivity. Qed.

(** C4, evaluated where the code departs from it.  With [wigToBigWig]
    missing and one input file given, the script logs the missing tool
    and stops before any input is touched, but through [sys.exit()]: the
    exit status is 0. *)
Theorem C4_missing_dependency_exit_status :
  let r := script (World.make World.encoder_missing) World.defaults ["sample.bam"]
             (World.start []) in
  r.1 = Raise (SystemExit None)
  /\ exit_status r.1 = 0
  /\ events r.2
     = [Log CRITICAL "Missing dependency: wigToBigWig from UCSC (http://hgdownload.cse.ucsc.edu/admin/exe/)";
        Spawn ["rsem-bam2wig"]]
  /\ map_to_list (fs r.2) = map_to_list World.disk.
Proof. vm_compute. repeat split; reflexivity. Qed.

(** C9, evaluated where the code departs from it.  [indexed_bam] has no
    [try]/[finally] around its [yield]: when reading the catalog raises
    (here a keyboard interrupt), [get_sizes_from_bam] raises with the
    alignment handle still open.  On the normal path it is closed. *)
Theorem C9_handle_left_open :
  let r := get_sizes_from_bam (World.make World.interrupted_catalog) "sample.bam"
             (World.start []) in
  let ok := get_sizes_from_bam (World.make World.healthy) "sample.bam"
              (World.start []) in
  r.1 = Raise KeyboardInterrupt /\ open_sam r.2 = ["sample.bam"]
  /\ ok.1 = Ret [("chr1", 1000); ("chr2", 2000)] /\ open_sam ok.2 = [].
Proof. vm_compute. repeat split; reflexivity. Qed.

(** * Further properties *)

Lemma set_events_same s : set_events (events s) s = s.
Proof. by destruct s. Qed.

(** X1. [query_yes_no] with a default other than "yes", "no" or [None]
    raises [ValueError] at once: nothing is printed and no input is
    read. *)
Theorem query_yes_no_invalid_default question d s :
  d <> "yes" -> d <> "no" ->
  query_yes_no question (Some d) s = (Raise ValueError, s).
Proof.
  intros H1 H2. unfold query_yes_no.
  apply String.eqb_neq in H1, H2. rewrite H1, H2. reflexivity.
Qed.

(** An instance. *)
Lemma query_yes_no_invalid_default_witness :
  query_yes_no "Overwrite?" (Some "maybe") (World.start ["yes"])
  = (Raise ValueError, World.start ["yes"]).
Proof.
  apply query_yes_no_invalid_default.
  - apply String.eqb_neq. vm_compute. reflexivity.
  - apply String.eqb_neq. vm_compute. reflexivity.
Defined.

Lemma query_yes_no_loop question default s :
  default_ok default ->
  query_yes_no question default s
  = query_loop question (prompt_for default) default (stdin s) s.
Proof. intros [->|[->| ->]]; reflexivity. Qed.

Lemma query_loop_answered question prompt default rejected : forall s good rest b,
  default_ok default ->
  Forall (fun line => answer default line = None) rejected ->
  answer default good = Some b ->
  query_loop question prompt default (rejected ++ good :: rest) s
  = (Ret b, set_stdin rest
              (set_events (events s ++ asked question prompt rejected) s)).
Proof.
  induction rejected as [|bad rejected IH]; intros s good rest b Hd Hbad Hgood.
  - cbn [app query_loop asked]. unfold bind at 1. unfold stdout_write at 1, emit at 1.
    unfold bind at 1.
    unfold answer in Hgood.
    destruct (bool_decide (default <> None) && String.eqb (pystr.lower good) EmptyString).
    + destruct default as [d|]; [|done]. simpl in Hgood.
      unfold valid_get. by rewrite Hgood.
    + rewrite bool_decide_eq_true_2 by eauto. unfold valid_get. by rewrite Hgood.
  - apply Forall_cons in Hbad as [Hb Hbad].
    cbn [app query_loop asked]. unfold bind at 1. unfold stdout_write at 1, emit at 1.
    unfold bind at 1.
    unfold answer in Hb.
    destruct (bool_decide (default <> None) && String.eqb (pystr.lower bad) EmptyString) eqn:Hc.
    + exfalso. destruct Hd as [->|[->| ->]]; [done|done..].
    + rewrite bool_decide_eq_false_2 by (rewrite Hb; by intros [? ?]).
      unfold bind at 1. unfold stdout_write at 1, emit at 1.
      rewrite (IH _ good rest b Hd Hbad Hgood).
      cbn [events set_events set_stdin fs stdin open_sam unix_signals].
      by rewrite <- !app_assoc.
Qed.

Lemma query_loop_exhausted question prompt default lines : forall s,
  default_ok default ->
  Forall (fun line => answer default line = None) lines ->
  query_loop question prompt default lines s
  = (Raise EOFError,
     set_stdin (if lines is [] then stdin s else [])
       (set_events (events s ++ asked question prompt lines) s)).
Proof.
  induction lines as [|bad lines IH]; intros s Hd Hbad.
  - cbn [query_loop asked]. unfold bind, stdout_write, emit, raise. by destruct s.
  - apply Forall_cons in Hbad as [Hb Hbad].
    cbn [query_loop asked]. unfold bind at 1. unfold stdout_write at 1, emit at 1.
    unfold bind at 1.
    unfold answer in Hb.
    destruct (bool_decide (default <> None) && String.eqb (pystr.lower bad) EmptyString) eqn:Hc.
    + exfalso. destruct Hd as [->|[->| ->]]; [done|done..].
    + rewrite bool_decide_eq_false_2 by (rewrite Hb; by intros [? ?]).
      unfold bind at 1. unfold stdout_write at 1, emit at 1.
      rewrite (IH _ Hd Hbad).
      cbn [events set_events set_stdin fs stdin open_sam unix_signals].
      rewrite <- !app_assoc. by destruct lines.
Qed.

(** X2. [query_yes_no] asks until it gets an answer: with lines on
    standard input that are not understood followed by one that is
    (whatever the case of its letters; the empty line stands for the
    default when there is one), it returns that answer, has read exactly
    these lines, and has printed the question once per line read, with
    the complaint after each line it did not understand. *)
Theorem query_yes_no_asks_until_answered question default s rejected good rest b :
  default_ok default ->
  stdin s = rejected ++ good :: rest ->
  Forall (fun line => answer default line = None) rejected ->
  answer default good = Some b ->
  query_yes_no question default s
  = (Ret b, set_stdin rest
              (set_events
                 (events s ++ asked question (prompt_for default) rejected) s)).
Proof.
  intros Hd Hin Hbad Hgood.
  rewrite query_yes_no_loop, Hin by done. by apply query_loop_answered.
Qed.

(** An instance. *)
Lemma query_yes_no_asks_until_answered_witness :
  query_yes_no "Overwrite?" (Some "no") (World.start ["maybe"; "YES"; "left"])
  = (Ret true,
     set_stdin ["left"]
       (set_events
          [Stdout "Overwrite? [y/N] "; Stdout complaint; Stdout "Overwrite? [y/N] "]
          (World.start ["maybe"; "YES"; "left"]))).
Proof.
  apply (query_yes_no_asks_until_answered "Overwrite?" (Some "no")
           (World.start ["maybe"; "YES"; "left"]) ["maybe"] "YES" ["left"] true).
  - right. right. reflexivity.
  - reflexivity.
  - repeat constructor.
  - vm_compute. reflexivity.
Defined.

(** X3. When standard input ends before any line is understood,
    [query_yes_no] raises [EOFError], having read all of it and asked
    once more than there were lines. *)
Theorem query_yes_no_input_exhausted question default s :
  default_ok default ->
  Forall (fun line => answer default line = None) (stdin s) ->
  query_yes_no question default s
  = (Raise EOFError,
     set_stdin []
       (set_events
          (events s ++ asked question (prompt_for default) (stdin s)) s)).
Proof.
  intros Hd Hbad.
  rewrite query_yes_no_loop, query_loop_exhausted by done.
  destruct s as [f [|l i] ev o u]; reflexivity.
Qed.

(** An instance. *)
Lemma query_yes_no_input_exhausted_witness :
  query_yes_no "Overwrite?" None (World.start [EmptyString])
  = (Raise EOFError,
     set_stdin []
       (set_events
          [Stdout "Overwrite? [y/n] "; Stdout complaint; Stdout "Overwrite? [y/n] "]
          (World.start [EmptyString]))).
Proof.
  apply (query_yes_no_input_exhausted "Overwrite?" None (World.start [EmptyString])).
  - left. reflexivity.
  - repeat constructor.
Defined.

Lemma indexed_bam_enter_run E bam s f1 h :
  pysam_importable E = true ->
  index_step E bam s = (Ret tt, f1) ->
  pysam_Samfile E bam f1 = Ret h ->
  indexed_bam_enter E bam s
  = (Ret h, set_open_sam (sam_path h :: open_sam s) (set_fs f1 s)).
Proof.
  intros Hi Hx Ho. unfold indexed_bam_enter, index_step in *.
  unfold import_pysam. rewrite Hi.
  unfold bind at 1. unfold ret at 1.
  unfold bind at 1. unfold os_path_exists at 1, gets at 1.
  destruct (exists_ E s (bam +:+ ".bai")); cbn [negb].
  - injection Hx as <-. unfold bind at 1. unfold ret at 1.
    unfold bind at 1. rewrite Ho. cbv beta iota.
    unfold bind, ret. cbn. by destruct s.
  - unfold bind at 1. rewrite Hx. cbv beta iota.
    unfold bind at 1. cbn [fs set_fs]. rewrite Ho. reflexivity.
Qed.

Lemma remove_first_head x l : remove_first x (x :: l) = l.
Proof. cbn. by rewrite String.eqb_refl. Qed.

Lemma zip_length {A B} (a : list A) (b : list B) :
  length (zip a b) = Nat.min (length a) (length b).
Proof.
  revert b. induction a as [|x a IH]; intros [|y b]; cbn; try done.
  by rewrite IH.
Qed.

(** X4. When pysam is there, the index step succeeds (the index is built
    only if [<bam>.bai] does not exist) and the catalog can be read,
    [get_sizes_from_bam] returns the names zipped with the lengths, as
    many pairs as the shorter of the two has, and leaves the handles as
    they were; with an index already there the file system is
    untouched. *)
Theorem get_sizes_from_bam_returns E bam s f1 h refs lens :
  pysam_importable E = true ->
  index_step E bam s = (Ret tt, f1) ->
  pysam_Samfile E bam f1 = Ret h ->
  references h = Ret refs ->
  lengths h = Ret lens ->
  get_sizes_from_bam E bam s = (Ret (zip refs lens), set_fs f1 s)
  /\ length (zip refs lens) = Nat.min (length refs) (length lens)
  /\ (exists_ E s (bam +:+ ".bai") = true -> f1 = fs s).
Proof.
  intros Hi Hx Ho Hr Hl. split; [|split].
  - unfold get_sizes_from_bam, indexed_bam, with_contextmanager.
    rewrite (bind_Ret _ _ _ _ _ (indexed_bam_enter_run _ _ _ _ _ Hi Hx Ho)).
    rewrite Hr, Hl. unfold bind, lift, ret, indexed_bam_leave.
    cbn [open_sam set_open_sam set_fs fs stdin events unix_signals].
    rewrite remove_first_head. by destruct s.
  - apply zip_length.
  - intros He. unfold index_step in Hx. rewrite He in Hx. by injection Hx.
Qed.

(** An instance. *)
Lemma get_sizes_from_bam_returns_witness :
  let E := World.make World.healthy in
  get_sizes_from_bam E "sample.bam" (World.start [])
  = (Ret (zip ["chr1"; "chr2"] [1000; 2000]),
     set_fs (<["/work/sample.bam.bai" := File true "index"]> World.disk) (World.start [])).
Proof.
  cbv zeta.
  refine (proj1 (get_sizes_from_bam_returns (World.make World.healthy) "sample.bam"
            (World.start [])
            (<["/work/sample.bam.bai" := File true "index"]> World.disk)
            {| sam_path := "sample.bam"; references := Ret ["chr1"; "chr2"];
               lengths := Ret [1000; 2000] |}
            ["chr1"; "chr2"] [1000; 2000] _ _ _ _ _)); reflexivity.
Defined.

(** X5. When reading the names or the lengths raises inside the [with]
    body, [get_sizes_from_bam] raises the same exception and the handle
    [indexed_bam] opened stays open. *)
Theorem get_sizes_from_bam_raises E bam s f1 h e :
  pysam_importable E = true ->
  index_step E bam s = (Ret tt, f1) ->
  pysam_Samfile E bam f1 = Ret h ->
  references h = Raise e \/ (exists refs, references h = Ret refs /\ lengths h = Raise e) ->
  get_sizes_from_bam E bam s
  = (Raise e, set_open_sam (sam_path h :: open_sam s) (set_fs f1 s)).
Proof.
  intros Hi Hx Ho Hr.
  unfold get_sizes_from_bam, indexed_bam, with_contextmanager.
  rewrite (bind_Ret _ _ _ _ _ (indexed_bam_enter_run _ _ _ _ _ Hi Hx Ho)).
  destruct Hr as [Hr|(refs & Hr & Hl)].
  - rewrite Hr. reflexivity.
  - rewrite Hr, Hl. reflexivity.
Qed.

(** An instance. *)
Lemma get_sizes_from_bam_raises_witness :
  let E := World.make World.interrupted_catalog in
  get_sizes_from_bam E "sample.bam" (World.start [])
  = (Raise KeyboardInterrupt,
     set_open_sam ["sample.bam"]
       (set_fs (<["/work/sample.bam.bai" := File true "index"]> World.disk)
          (World.start []))).
Proof.
  cbv zeta.
  refine (get_sizes_from_bam_raises (World.make World.interrupted_catalog) "sample.bam"
            (World.start [])
            (<["/work/sample.bam.bai" := File true "index"]> World.disk)
            {| sam_path := "sample.bam"; references := Raise KeyboardInterrupt;
               lengths := Ret [1000; 2000] |}
            KeyboardInterrupt _ _ _ _); [reflexivity..|].
  left. reflexivity.
Defined.

Lemma probe_import E b msg s :
  probe b (import_pysam E)
    (fun e => match e with ImportError => true | _ => false end) msg s
  = if pysam_importable E then (Ret b, s)
    else (Ret false, set_events (events s ++ [Log CRITICAL msg]) s).
Proof.
  unfold probe, try_except, bind, import_pysam.
  by destruct (pysam_importable E).
Qed.

Lemma probe_call E b cl msg s :
  probe b (call E cl)
    (fun e => match e with OSError _ => true | _ => false end) msg s
  = if startable E cl (fs s)
    then (Ret b, set_events (events s ++ [Spawn cl])
                   (set_fs (after_probe E cl (fs s)) s))
    else (Ret false, set_events (events s ++ [Log CRITICAL msg]) s).
Proof.
  unfold probe, call, Popen_communicate, startable, after_probe, try_except, bind.
  cbv beta.
  destruct (run_tool E cl (fs s)) as [[rc f']|].
  - rewrite bool_decide_eq_true_2 by eauto. reflexivity.
  - rewrite bool_decide_eq_false_2 by (by intros [? ?]). reflexivity.
Qed.

Lemma dependences_exist_run E s :
  exists s',
    dependences_exist E s = (Ret (dependencies_present E (fs s)), s')
    /\ fs s' = after_probe E ["rsem-bam2wig"] (after_probe E ["wigToBigWig"] (fs s))
    /\ List.filter is_log (events s')
       = List.filter is_log (events s) ++ missing_messages E (fs s)
    /\ spawned (events s') = spawned (events s) ++ probes_started E (fs s)
    /\ stdin s' = stdin s /\ open_sam s' = open_sam s.
Proof.
  unfold dependences_exist, dependencies_present, missing_messages, probes_started.
  unfold bind at 1. rewrite probe_import.
  destruct (pysam_importable E);
    (unfold bind at 1; rewrite probe_call; cbn [fs set_events];
     destruct (startable E ["wigToBigWig"] (fs s)) eqn:H1;
     unfold bind at 1; rewrite probe_call;
     cbn [fs set_events set_fs];
     [|assert (Hsame : after_probe E ["wigToBigWig"] (fs s) = fs s)
         by (unfold startable, after_probe in *;
             destruct (run_tool E ["wigToBigWig"] (fs s)) as [[? ?]|];
             [by rewrite bool_decide_eq_true_2 in H1 by eauto | done]);
       rewrite Hsame];
     destruct (startable E ["rsem-bam2wig"] _) eqn:H2;
     eexists; (split; [reflexivity|]);
     cbn [fs events stdin open_sam set_events set_fs];
     rewrite ?List.filter_app, ?spawned_app; cbn;
     rewrite ?app_nil_r, <- ?app_assoc;
     unfold after_probe in *; unfold startable in H2;
     destruct (run_tool E ["rsem-bam2wig"] _) as [[? ?]|];
     try (by rewrite bool_decide_eq_true_2 in H2 by eauto);
     try (by rewrite bool_decide_eq_false_2 in H2 by (by intros [? ?]));
     done).
Qed.

(** X6. [dependences_exist] never raises: it runs all three probes,
    returns whether pysam can be imported and both tools can be started,
    logs one critical message per missing dependency and nothing else,
    starts each tool that is there once, and reads no input. *)
Theorem dependences_exist_reports E s :
  exists s',
    dependences_exist E s = (Ret (dependencies_present E (fs s)), s')
    /\ fs s' = after_probe E ["rsem-bam2wig"] (after_probe E ["wigToBigWig"] (fs s))
    /\ List.filter is_log (events s')
       = List.filter is_log (events s) ++ missing_messages E (fs s)
    /\ spawned (events s') = spawned (events s) ++ probes_started E (fs s)
    /\ stdin s' = stdin s /\ open_sam s' = open_sam s.
Proof. apply dependences_exist_run. Qed.

(** X7. With no positional argument the script prints the module
    docstring, runs the dependency check, and leaves through
    [sys.exit()]: the exit status is 0 whatever the check found, and the
    only subprocesses are the probes. *)
Theorem script_without_arguments E o s :
  let s1 := set_events (events s ++ [Stdout (module_doc +:+ NL)]) s in
  script E o [] s = (Raise (SystemExit None), (dependences_exist E s1).2)
  /\ exit_status (script E o [] s).1 = 0
  /\ spawned (events (script E o [] s).2)
     = spawned (events s) ++ probes_started E (fs s).
Proof.
  cbv zeta.
  destruct (dependences_exist_run E
              (set_events (events s ++ [Stdout (module_doc +:+ NL)]) s))
    as (s' & Hd & _ & _ & Hsp & _).
  assert (Hs : script E o [] s = (Raise (SystemExit None), s')).
  { unfold script. rewrite bool_decide_eq_true_2 by done.
    unfold bind at 1. unfold bind at 1. unfold stdout_write at 1, emit at 1.
    unfold bind at 1. rewrite Hd. reflexivity. }
  rewrite Hs, Hd. cbn [fst snd]. split; [done|]. split; [done|].
  rewrite Hsp. cbn [events set_events fs]. rewrite spawned_app. cbn.
  by rewrite app_nil_r.
Qed.

(** X8. With input files given and a dependency missing, the script
    stops after the dependency check, in the state the check left, with
    exit status 0: no input file is processed. *)
Theorem script_stops_on_missing_dependency E o args s :
  args <> [] ->
  dependencies_present E (fs s) = false ->
  script E o args s = (Raise (SystemExit None), (dependences_exist E s).2)
  /\ exit_status (script E o args s).1 = 0
  /\ spawned (events (script E o args s).2)
     = spawned (events s) ++ probes_started E (fs s).
Proof.
  intros Hargs Hmiss.
  destruct (dependences_exist_run E s) as (s' & Hd & _ & _ & Hsp & _).
  rewrite Hmiss in Hd.
  rewrite (script_missing_dependency E o args s s' Hargs Hd), Hd.
  by repeat split.
Qed.

(** An instance. *)
Lemma script_stops_on_missing_dependency_witness :
  let E := World.make World.encoder_missing in
  script E World.defaults ["sample.bam"; "other.bam"] (World.start [])
  = (Raise (SystemExit None), (dependences_exist E (World.start [])).2)
  /\ exit_status (script E World.defaults ["sample.bam"; "other.bam"]
                    (World.start [])).1 = 0
  /\ spawned (events (script E World.defaults ["sample.bam"; "other.bam"]
                        (World.start [])).2)
     = spawned (events (World.start [])) ++ probes_started E (fs (World.start [])).
Proof.
  cbv zeta.
  apply (script_stops_on_missing_dependency (World.make World.encoder_missing)).
  - discriminate.
  - vm_compute. reflexivity.
Defined.

(** X9. The file loop catches [KeyboardInterrupt] and nothing else: when
    the pipeline of one file raises it, the loop prints a newline, logs
    "Aborted by keyboard interrupt" and ends normally; any other
    exception leaves the loop as it is.  In both cases the files that
    follow are not processed. *)
Theorem file_loop_on_exception E o pre bam post s s1 e s2 :
  for_each pre (main_kwargs E o) s = (Ret tt, s1) ->
  main_kwargs E o bam s1 = (Raise e, s2) ->
  file_loop E o (pre ++ bam :: post) s
  = match e with
    | KeyboardInterrupt =>
        (Ret tt,
         set_events
           (events s2 ++ [Stdout NL; Log INFO "Aborted by keyboard interrupt"]) s2)
    | _ => (Raise e, s2)
    end.
Proof.
  intros Hpre Hx. unfold file_loop, try_except.
  rewrite (for_each_stops _ _ _ _ _ _ _ _ Hpre Hx).
  destruct e; try reflexivity.
  unfold bind, stdout_write, log_info, emit. cbn. by rewrite <- app_assoc.
Qed.

(** An instance. *)
Lemma file_loop_on_exception_witness :
  let E := World.make World.interrupted_catalog in
  let s2 := (main_kwargs E World.defaults "sample.bam" (World.start [])).2 in
  file_loop E World.defaults ([] ++ "sample.bam" :: ["other.bam"]) (World.start [])
  = (Ret tt,
     set_events
       (events s2 ++ [Stdout NL; Log INFO "Aborted by keyboard interrupt"]) s2).
Proof.
  cbv zeta.
  refine (file_loop_on_exception (World.make World.interrupted_catalog) World.defaults
            [] "sample.bam" ["other.bam"] (World.start []) (World.start [])
            KeyboardInterrupt _ _ _).
  - reflexivity.
  - vm_compute. reflexivity.
Defined.

Lemma launch_value {A} (m : M Z) (d : Z -> M A) (v : Z -> pyval) s x :
  (bind m (fun rc => bind (d rc) (fun _ => ret (v rc))) s).1 = Ret x ->
  exists rc, x = v rc.
Proof.
  intros H. apply bind_Ret_inv in H as (rc & s1 & _ & H).
  apply bind_Ret_inv in H as (a & s2 & _ & H).
  unfold ret in H. simpl in H. injection H as H. eauto.
Qed.

Lemma bam_to_wig_truth E s bam wig f1 f2 f3 f4 v :
  (bam_to_wig E bam wig f1 f2 f3 f4 s).1 = Ret v ->
  truthy v = canWrite E s (stage1_target bam wig).
Proof.
  intros H. destruct (canWrite E s (stage1_target bam wig)) eqn:Hw.
  - unfold canWrite in Hw. revert H.
    unfold bam_to_wig. fold (stage1_target bam wig).
    run_precheck Hw; intros H; apply launch_value in H as [rc ->]; reflexivity.
  - rewrite (bam_to_wig_denied _ _ _ _ _ _ _ _ Hw) in H. by injection H as <-.
Qed.

Lemma wig_to_bigwig_truth E s wig bigwig sizes v :
  (wig_to_bigwig E wig bigwig sizes s).1 = Ret v ->
  truthy v = canWrite E s (stage2_target wig bigwig).
Proof.
  intros H. destruct (canWrite E s (stage2_target wig bigwig)) eqn:Hw.
  - unfold canWrite in Hw. revert H.
    unfold wig_to_bigwig. fold (stage2_target wig bigwig).
    run_precheck Hw; intros H; apply launch_value in H as [rc ->]; reflexivity.
  - rewrite (wig_to_bigwig_denied _ _ _ _ _ Hw) in H. by injection H as <-.
Qed.

(** X10. The truth value of what a stage wrapper returns is the outcome
    of its permission check, whatever the tool's return code: the
    wrapper returns [False] only on a denial, and the pair
    [(rc == 0, rc)] counts as true. *)
Theorem stage_result_truth_is_permission E :
  (forall s bam wig f1 f2 f3 f4 v,
      (bam_to_wig E bam wig f1 f2 f3 f4 s).1 = Ret v ->
      truthy v = canWrite E s (stage1_target bam wig))
  /\ (forall s wig bigwig sizes v,
      (wig_to_bigwig E wig bigwig sizes s).1 = Ret v ->
      truthy v = canWrite E s (stage2_target wig bigwig)).
Proof.
  split; intros; [by eapply bam_to_wig_truth | by eapply wig_to_bigwig_truth].
Qed.

(** An instance. *)
Lemma stage_result_truth_is_permission_witness :
  let E := World.make World.stage1_fails in
  truthy (PyTuple [PyBool false; PyInt 1])
  = canWrite E (World.start []) (stage1_target "sample.bam" "sample.wig").
Proof.
  cbv zeta.
  apply (proj1 (stage_result_truth_is_permission (World.make World.stage1_fails))
           (World.start []) "sample.bam" "sample.wig" false false false false).
  vm_compute. reflexivity.
Defined.

Lemma launch_spawns E cl {A} (d : Z -> M A) (v : Z -> pyval) s :
  (forall rc, preserves nothing_launched (d rc)) ->
  spawned (events (bind (Popen_communicate E cl)
                     (fun rc => bind (d rc) (fun _ => ret (v rc))) s).2)
  = spawned (events s) ++ (if startable E cl (fs s) then [cl] else []).
Proof.
  intros Hd. unfold bind at 1. unfold Popen_communicate, startable.
  destruct (run_tool E cl (fs s)) as [[rc f']|].
  - rewrite bool_decide_eq_true_2 by eauto.
    assert (Hq : preserves nothing_launched (bind (d rc) (fun _ => ret (v rc)))).
    { apply preserves_bind; [exact _ | apply Hd | intros ?; apply preserves_ret; exact _]. }
    destruct (Hq (set_events (events s ++ [Spawn cl]) (set_fs f' s))) as [_ ->].
    cbn [events set_events]. by rewrite spawned_app.
  - rewrite bool_decide_eq_false_2 by (by intros [? ?]). cbn. by rewrite app_nil_r.
Qed.

Lemma diagnosis_quiet cl rc : preserves nothing_launched (diagnosis_block cl rc).
Proof. preserves_prog prim_quiet. Qed.

Lemma bam_to_wig_spawned E s bam wig f1 f2 f3 f4 :
  spawned (events (bam_to_wig E bam wig f1 f2 f3 f4 s).2)
  = spawned (events s)
    ++ (if canWrite E s (stage1_target bam wig)
           && startable E (stage1_command bam wig f1 f2 f3 f4) (fs s)
        then [stage1_command bam wig f1 f2 f3 f4] else []).
Proof.
  destruct (canWrite E s (stage1_target bam wig)) eqn:Hw; cbn [andb].
  - unfold canWrite in Hw. unfold bam_to_wig. fold (stage1_target bam wig).
    fold (stage1_command bam wig f1 f2 f3 f4).
    run_precheck Hw; apply launch_spawns; intros rc; apply diagnosis_quiet.
  - rewrite (bam_to_wig_denied _ _ _ _ _ _ _ _ Hw). cbn.
    rewrite spawned_app. cbn. by rewrite !app_nil_r.
Qed.

Lemma wig_to_bigwig_spawned E s wig bigwig sizes :
  spawned (events (wig_to_bigwig E wig bigwig sizes s).2)
  = spawned (events s)
    ++ (if canWrite E s (stage2_target wig bigwig)
           && startable E (stage2_command wig bigwig sizes) (fs s)
        then [stage2_command wig bigwig sizes] else []).
Proof.
  destruct (canWrite E s (stage2_target wig bigwig)) eqn:Hw; cbn [andb].
  - unfold canWrite in Hw. unfold wig_to_bigwig. fold (stage2_target wig bigwig).
    fold (stage2_command wig bigwig sizes).
    run_precheck Hw; apply launch_spawns; intros rc; apply diagnosis_quiet.
  - rewrite (wig_to_bigwig_denied _ _ _ _ _ Hw). cbn.
    rewrite spawned_app. cbn. by rewrite !app_nil_r.
Qed.

(** X11. A stage wrapper launches at most one subprocess, and launches
    it exactly when its permission check passes and the tool can be
    started; the command line is the one built from its arguments. *)
Theorem stage_launches_at_most_once E :
  (forall s bam wig f1 f2 f3 f4,
      spawned (events (bam_to_wig E bam wig f1 f2 f3 f4 s).2)
      = spawned (events s)
        ++ (if canWrite E s (stage1_target bam wig)
               && startable E (stage1_command bam wig f1 f2 f3 f4) (fs s)
            then [stage1_command bam wig f1 f2 f3 f4] else []))
  /\ (forall s wig bigwig sizes,
      spawned (events (wig_to_bigwig E wig bigwig sizes s).2)
      = spawned (events s)
        ++ (if canWrite E s (stage2_target wig bigwig)
               && startable E (stage2_command wig bigwig sizes) (fs s)
            then [stage2_command wig bigwig sizes] else [])).
Proof.
  split; intros; [apply bam_to_wig_spawned | apply wig_to_bigwig_spawned].
Qed.

#[local] Instance same_stdin_preorder : PreOrder same_stdin.
Proof. split; [by intros s | intros a b c H1 H2; unfold same_stdin in *; congruence]. Qed.

#[local] Instance same_spawned_preorder : PreOrder same_spawned.
Proof. split; [by intros s | intros a b c H1 H2; unfold same_spawned in *; congruence]. Qed.

Ltac prim_stdin :=
  idtac;
  first [assumption
        | let s := fresh "s" in
          intros s; repeat autounfold with prims; unfold same_stdin;
          repeat case_match; simplify_eq; simpl; done].

Ltac prim_spawned :=
  idtac;
  first [assumption
        | let s := fresh "s" in
          intros s; repeat autounfold with prims; unfold same_spawned;
          repeat case_match; simplify_eq; simpl;
          rewrite ?spawned_app, ?app_nil_r; done].

Lemma bam_to_wig_stdin E a b f1 f2 f3 f4 : preserves same_stdin (bam_to_wig E a b f1 f2 f3 f4).
Proof. unfold bam_to_wig. preserves_prog prim_stdin. Qed.

Lemma wig_to_bigwig_stdin E a b c : preserves same_stdin (wig_to_bigwig E a b c).
Proof. unfold wig_to_bigwig. preserves_prog prim_stdin. Qed.

Lemma get_sizes_from_bam_stdin E bam : preserves same_stdin (get_sizes_from_bam E bam).
Proof.
  unfold get_sizes_from_bam, indexed_bam, with_contextmanager, indexed_bam_enter.
  preserves_prog prim_stdin.
Qed.

Lemma bam_to_sizes_stdin E bam path : preserves same_stdin (bam_to_sizes E bam path).
Proof.
  unfold bam_to_sizes.
  preserves_prog ltac:(first [apply get_sizes_from_bam_stdin | prim_stdin]).
Qed.

Lemma main_stages_stdin E bam bw t f1 f2 f3 f4 s :
  exists_nonempty E s (resolved_output bam bw) = false ->
  stdin (main_stages E bam bw t f1 f2 f3 f4 s).2 = stdin s.
Proof.
  intros Hex. unfold main_stages. fold (resolved_output bam bw).
  destruct (String.eqb (abspath E bam) (abspath E (resolved_output bam bw))).
  - reflexivity.
  - unfold bind at 1. unfold ret at 1.
    rewrite exists_nonempty_run, Hex. cbv beta iota.
    match goal with
    | |- stdin (?m s).2 = stdin s =>
        assert (Hp : preserves same_stdin m);
        [|exact (Hp s)]
    end.
    preserves_prog ltac:(first [apply bam_to_wig_stdin | apply wig_to_bigwig_stdin
                               | apply bam_to_sizes_stdin | prim_stdin]).
Qed.

(** X12. When the output does not exist or is empty, [main] asks
    nothing: standard input is left as it was, however the run ends. *)
Theorem main_reads_no_input_for_fresh_output E bam bw t k f1 f2 f3 f4 s :
  exists_nonempty E s (resolved_output bam bw) = false ->
  stdin (main E bam bw t k f1 f2 f3 f4 s).2 = stdin s.
Proof.
  intros Hex. pose proof (main_stages_stdin E bam bw t f1 f2 f3 f4 s Hex) as Hst.
  unfold main, bind at 1.
  destruct (main_stages E bam bw t f1 f2 f3 f4 s) as [[[wig sizes]|e] s2];
    cbn [snd] in Hst |- *; [|done].
  rewrite <- Hst.
  assert (Hp : preserves same_stdin
                 (if negb k then os_remove E sizes ;; os_remove E wig else ret tt))
    by preserves_prog prim_stdin.
  exact (Hp s2).
Qed.

(** An instance. *)
Lemma main_reads_no_input_for_fresh_output_witness :
  let E := World.make World.healthy in
  stdin (main E "sample.bam" None false false false false false false
           (World.start ["yes"; "no"])).2
  = stdin (World.start ["yes"; "no"]).
Proof.
  cbv zeta.
  apply (main_reads_no_input_for_fresh_output (World.make World.healthy)).
  vm_compute. reflexivity.
Defined.

Lemma bind_Ret_inv_val {A B} (m : M A) (k : A -> M B) s b s' :
  bind m k s = (Ret b, s') -> exists a s1, m s = (Ret a, s1) /\ k a s1 = (Ret b, s').
Proof.
  unfold bind. destruct (m s) as [[a|e] s1]; [eauto | discriminate].
Qed.

Lemma query_yes_no_spawned q d : preserves same_spawned (query_yes_no q d).
Proof. intros s. apply query_yes_no_quiet. Qed.

Lemma get_sizes_from_bam_spawned E bam : preserves same_spawned (get_sizes_from_bam E bam).
Proof.
  unfold get_sizes_from_bam, indexed_bam, with_contextmanager, indexed_bam_enter.
  preserves_prog prim_spawned.
Qed.

Lemma bam_to_sizes_spawned E bam path : preserves same_spawned (bam_to_sizes E bam path).
Proof.
  unfold bam_to_sizes.
  preserves_prog ltac:(first [apply get_sizes_from_bam_spawned | prim_spawned]).
Qed.

Lemma bam_to_wig_unstartable E s bam wig f1 f2 f3 f4 :
  canWrite E s (stage1_target bam wig) = true ->
  startable E (stage1_command bam wig f1 f2 f3 f4) (fs s) = false ->
  bam_to_wig E bam wig f1 f2 f3 f4 s = (Raise (OSError errno.ENOENT), s).
Proof.
  intros Hw Hs. unfold canWrite in Hw. unfold startable in Hs.
  apply bool_decide_eq_false in Hs.
  unfold bam_to_wig. fold (stage1_target bam wig).
  fold (stage1_command bam wig f1 f2 f3 f4).
  run_precheck Hw;
    (unfold bind at 1; unfold Popen_communicate at 1;
     destruct (run_tool E _ (fs s)) as [[? ?]|]; [exfalso; eauto | reflexivity]).
Qed.

Lemma wig_to_bigwig_unstartable E s wig bigwig sizes :
  canWrite E s (stage2_target wig bigwig) = true ->
  startable E (stage2_command wig bigwig sizes) (fs s) = false ->
  wig_to_bigwig E wig bigwig sizes s = (Raise (OSError errno.ENOENT), s).
Proof.
  intros Hw Hs. unfold canWrite in Hw. unfold startable in Hs.
  apply bool_decide_eq_false in Hs.
  unfold wig_to_bigwig. fold (stage2_target wig bigwig).
  fold (stage2_command wig bigwig sizes).
  run_precheck Hw;
    (unfold bind at 1; unfold Popen_communicate at 1;
     destruct (run_tool E _ (fs s)) as [[? ?]|]; [exfalso; eauto | reflexivity]).
Qed.

Lemma bam_to_wig_ran E s bam wig f1 f2 f3 f4 v s' :
  bam_to_wig E bam wig f1 f2 f3 f4 s = (Ret v, s') ->
  truthy v = true ->
  spawned (events s') = spawned (events s) ++ [stage1_command bam wig f1 f2 f3 f4].
Proof.
  intros H Hv.
  pose proof (bam_to_wig_truth E s bam wig f1 f2 f3 f4 v) as Ht.
  rewrite H in Ht. specialize (Ht eq_refl). rewrite Hv in Ht. symmetry in Ht.
  pose proof (bam_to_wig_spawned E s bam wig f1 f2 f3 f4) as Hl.
  rewrite H, Ht in Hl. cbn [snd andb] in Hl.
  destruct (startable E _ (fs s)) eqn:Hs; [exact Hl|].
  by rewrite (bam_to_wig_unstartable _ _ _ _ _ _ _ _ Ht Hs) in H.
Qed.

Lemma wig_to_bigwig_ran E s wig bigwig sizes v s' :
  wig_to_bigwig E wig bigwig sizes s = (Ret v, s') ->
  truthy v = true ->
  spawned (events s') = spawned (events s) ++ [stage2_command wig bigwig sizes].
Proof.
  intros H Hv.
  pose proof (wig_to_bigwig_truth E s wig bigwig sizes v) as Ht.
  rewrite H in Ht. specialize (Ht eq_refl). rewrite Hv in Ht. symmetry in Ht.
  pose proof (wig_to_bigwig_spawned E s wig bigwig sizes) as Hl.
  rewrite H, Ht in Hl. cbn [snd andb] in Hl.
  destruct (startable E _ (fs s)) eqn:Hs; [exact Hl|].
  by rewrite (wig_to_bigwig_unstartable _ _ _ _ _ Ht Hs) in H.
Qed.

Ltac invert_bind H :=
  let a := fresh "a" in let s1 := fresh "s" in let Hm := fresh "Hm" in
  apply bind_Ret_inv_val in H as (a & s1 & Hm & H); cbv beta in H.

Lemma stage1_target_default_name bam f1 f2 f3 f4 :
  stage1_command bam ((posixpath.splitext bam).1 +:+ ".wig") f1 f2 f3 f4
  = ["rsem-bam2wig"; bam; (posixpath.splitext bam).1 +:+ ".wig";
     (posixpath.splitext bam).1; "--no-fractional-weight"]
    ++ (if f1 then ["--ignore-secondary"] else [])
    ++ (if f2 then ["--ignore-qc-fail"] else [])
    ++ (if f3 then ["--ignore-optical-pcr-duplicate"] else [])
    ++ (if f4 then ["--ignore-supplementary"] else []).
Proof. unfold stage1_command. by rewrite stage1_target_default. Qed.

Ltac quiet_fact H :=
  lazymatch type of H with
  | ?m ?s = (_, ?s') =>
      let Hp := fresh "Hq" in
      assert (Hp : preserves same_spawned m)
        by (preserves_prog ltac:(first [apply query_yes_no_spawned
                                       | apply bam_to_sizes_spawned
                                       | prim_spawned]));
      specialize (Hp s); rewrite H in Hp; unfold same_spawned in Hp;
      cbn [snd] in Hp; clear H
  end.

Ltac chain_spawned :=
  repeat match goal with
         | Hp : spawned (events ?s') = _ |- context [spawned (events ?s')] =>
             rewrite Hp; clear Hp
         end.

(** X13. When the stages of [main] complete without [--tempfile], the
    intermediates are [<prefix>.wig] and [<prefix>.sizes], and exactly
    two subprocesses were launched: [rsem-bam2wig] on the input with
    [--no-fractional-weight] and one option per filter flag set, then
    [wigToBigWig] on the coverage file, the size table and the output
    path. *)
Theorem main_stages_default_names E bam bw f1 f2 f3 f4 s wig sizes s2 :
  main_stages E bam bw false f1 f2 f3 f4 s = (Ret (wig, sizes), s2) ->
  wig = (posixpath.splitext bam).1 +:+ ".wig"
  /\ sizes = (posixpath.splitext bam).1 +:+ ".sizes"
  /\ spawned (events s2)
     = spawned (events s)
       ++ [["rsem-bam2wig"; bam; wig; (posixpath.splitext bam).1; "--no-fractional-weight"]
           ++ (if f1 then ["--ignore-secondary"] else [])
           ++ (if f2 then ["--ignore-qc-fail"] else [])
           ++ (if f3 then ["--ignore-optical-pcr-duplicate"] else [])
           ++ (if f4 then ["--ignore-supplementary"] else []);
           stage2_command wig (resolved_output bam bw) sizes].
Proof.
  intros H. unfold main_stages in H. fold (resolved_output bam bw) in H.
  repeat invert_bind H.
  unfold ret in H, Hm3, Hm8. simplify_eq.
  destruct (truthy a5) eqn:Ht1; [|discriminate Hm6].
  destruct (truthy a14) eqn:Ht2; [|cbn in Hm15; discriminate Hm15].
  apply bam_to_wig_ran in Hm5; [|done].
  apply wig_to_bigwig_ran in Hm14; [|done].
  rewrite stage1_target_default_name in Hm5.
  quiet_fact Hm. quiet_fact Hm0. quiet_fact Hm1. quiet_fact Hm2. quiet_fact Hm4.
  quiet_fact Hm6. quiet_fact Hm7. quiet_fact Hm9. quiet_fact Hm10. quiet_fact Hm11.
  quiet_fact Hm12. quiet_fact Hm13. quiet_fact Hm15. quiet_fact Hm16.
  split; [done|]. split; [done|].
  chain_spawned. by rewrite <- app_assoc.
Qed.

Lemma bind_quiet_step {A B} (Q : list (list string) -> Prop) (m : M A) (k : A -> M B) s :
  preserves same_spawned m ->
  Q (spawned (events s)) ->
  (forall a s1, m s = (Ret a, s1) -> spawned (events s1) = spawned (events s) ->
                Q (spawned (events (k a s1).2))) ->
  Q (spawned (events (bind m k s).2)).
Proof.
  intros Hp Hq Hk. unfold bind. specialize (Hp s). unfold same_spawned in Hp.
  destruct (m s) as [[a|e] s1]; cbn [snd] in *.
  - by apply Hk.
  - by rewrite Hp.
Qed.

Lemma quiet_end {A} (Q : list (list string) -> Prop) (m : M A) s :
  preserves same_spawned m -> Q (spawned (events s)) -> Q (spawned (events (m s).2)).
Proof. intros Hp Hq. specialize (Hp s). unfold same_spawned in Hp. by rewrite Hp. Qed.

Ltac quiet_prog :=
  preserves_prog ltac:(first [apply query_yes_no_spawned
                             | apply bam_to_sizes_spawned
                             | prim_spawned]).

(* one quiet statement of [main_stages]; [Hb] says what was launched up
   to the current state, [base] proves the property for that *)
Ltac quiet_step Hb base :=
  apply bind_quiet_step;
  [quiet_prog
  |rewrite Hb; base
  |let a := fresh "a" in let s1 := fresh "s" in
   let Hm := fresh "Hm" in let Hs := fresh "Hs" in
   intros a s1 Hm Hs; cbv beta; rewrite Hb in Hs; clear Hb; rename Hs into Hb].

Lemma in_stage_order_refl b : in_stage_order b b.
Proof. exists ["rsem-bam2wig"], ["wigToBigWig"]. by repeat split; [..|left]. Qed.

Lemma in_stage_order_stage1 b (c : bool) bam wig f1 f2 f3 f4 :
  in_stage_order b (b ++ (if c then [stage1_command bam wig f1 f2 f3 f4] else [])).
Proof.
  exists (stage1_command bam wig f1 f2 f3 f4), ["wigToBigWig"].
  split; [done|]. split; [done|].
  destruct c; [right; by left | left; by rewrite app_nil_r].
Qed.

Lemma in_stage_order_after1 b bam wig f1 f2 f3 f4 :
  in_stage_order b (b ++ [stage1_command bam wig f1 f2 f3 f4]).
Proof. apply (in_stage_order_stage1 b true). Qed.

Lemma in_stage_order_stage2 b (c : bool) bam wig f1 f2 f3 f4 wig' bigwig sizes :
  in_stage_order b
    ((b ++ [stage1_command bam wig f1 f2 f3 f4])
     ++ (if c then [stage2_command wig' bigwig sizes] else [])).
Proof.
  exists (stage1_command bam wig f1 f2 f3 f4), (stage2_command wig' bigwig sizes).
  split; [done|]. split; [done|].
  destruct c; [right; right; by rewrite <- app_assoc | right; left; by rewrite app_nil_r].
Qed.

Lemma main_stages_order E bam bw t f1 f2 f3 f4 s :
  in_stage_order (spawned (events s))
    (spawned (events (main_stages E bam bw t f1 f2 f3 f4 s).2)).
Proof.
  set (b := spawned (events s)).
  assert (Hb : spawned (events s) = b) by done. clearbody b.
  unfold main_stages. fold (resolved_output bam bw).
  do 6 quiet_step Hb ltac:(apply in_stage_order_refl).
  (* stage 1 *)
  unfold bind at 1.
  lazymatch goal with
  | |- context [bam_to_wig E bam ?w f1 f2 f3 f4 ?st] =>
      pose proof (bam_to_wig_spawned E st bam w f1 f2 f3 f4) as Hl;
      rewrite Hb in Hl;
      destruct (bam_to_wig E bam w f1 f2 f3 f4 st) as [[v|e] s7] eqn:H7
  end; cbn [snd] in Hl |- *; [|rewrite Hl; apply in_stage_order_stage1].
  destruct (truthy v) eqn:Hv;
    [|unfold bind at 1; cbn; rewrite Hl; apply in_stage_order_stage1].
  clear Hl. apply bam_to_wig_ran in H7; [|done]. rewrite Hb in H7. clear Hb.
  do 8 quiet_step H7 ltac:(apply in_stage_order_after1).
  (* stage 2 *)
  unfold bind at 1.
  lazymatch goal with
  | |- context [wig_to_bigwig E ?w ?o ?z ?st] =>
      pose proof (wig_to_bigwig_spawned E st w o z) as Hl;
      rewrite H7 in Hl;
      destruct (wig_to_bigwig E w o z st) as [[v2|e] s15]
  end; cbn [snd] in Hl |- *; [|rewrite Hl; apply in_stage_order_stage2].
  apply quiet_end; [quiet_prog|]. rewrite Hl. apply in_stage_order_stage2.
Qed.

(** X14. Whatever happens, the subprocesses [main] launches are none,
    or stage 1 alone, or stage 1 followed by stage 2: stage 2 never runs
    without stage 1 before it, and no tool runs twice. *)
Theorem main_runs_stages_in_order E bam bw t k f1 f2 f3 f4 s :
  in_stage_order (spawned (events s))
    (spawned (events (main E bam bw t k f1 f2 f3 f4 s).2)).
Proof.
  unfold main, bind at 1.
  pose proof (main_stages_order E bam bw t f1 f2 f3 f4 s) as H.
  destruct (main_stages E bam bw t f1 f2 f3 f4 s) as [[[wig sizes]|e] s2];
    cbn [snd] in H |- *; [|done].
  apply quiet_end; [quiet_prog | done].
Qed.

Lemma append_cons c (a b : string) : String c a +:+ b = String c (a +:+ b).
Proof. reflexivity. Qed.

Lemma split_lacks c a : lacks c a = true -> pystr.split c a = [a].
Proof.
  induction a as [|d a IH]; [done|]. cbn [lacks pystr.split]. intros H.
  apply andb_prop in H as [Hd Ha]. apply negb_true_iff in Hd. rewrite Hd.
  by rewrite (IH Ha).
Qed.

Lemma split_append_sep c a rest :
  lacks c a = true ->
  pystr.split c (a +:+ String c rest) = a :: pystr.split c rest.
Proof.
  induction a as [|d a IH]; intros H.
  - change (EmptyString +:+ String c rest) with (String c rest).
    cbn [pystr.split]. by rewrite Ascii.eqb_refl.
  - cbn [lacks] in H. apply andb_prop in H as [Hd Ha]. apply negb_true_iff in Hd.
    rewrite append_cons. cbn [pystr.split]. rewrite Hd, (IH Ha). reflexivity.
Qed.

Lemma lacks_uint c d :
  (nat_of_ascii c <? 48)%nat = true ->
  lacks c (NilEmpty.string_of_uint d) = true.
Proof.
  intros Hc. apply Nat.ltb_lt in Hc.
  assert (Hne : forall k, (48 <= k)%nat -> (k < 256)%nat ->
                          Ascii.eqb (ascii_of_nat k) c = false).
  { intros k Hk Hk'. apply Ascii.eqb_neq. intros <-.
    rewrite nat_ascii_embedding in Hc by done. lia. }
  induction d as [|d IH|d IH|d IH|d IH|d IH|d IH|d IH|d IH|d IH|d IH];
    cbn [NilEmpty.string_of_uint lacks]; [done|..]; rewrite IH, andb_true_r;
    apply negb_true_iff.
  - apply (Hne 48%nat); lia.
  - apply (Hne 49%nat); lia.
  - apply (Hne 50%nat); lia.
  - apply (Hne 51%nat); lia.
  - apply (Hne 52%nat); lia.
  - apply (Hne 53%nat); lia.
  - apply (Hne 54%nat); lia.
  - apply (Hne 55%nat); lia.
  - apply (Hne 56%nat); lia.
  - apply (Hne 57%nat); lia.
Qed.

Lemma lacks_of_Z c z :
  (nat_of_ascii c <? 45)%nat = true -> lacks c (pystr.of_Z z) = true.
Proof.
  intros Hc.
  assert (Hc' : (nat_of_ascii c <? 48)%nat = true)
    by (apply Nat.ltb_lt; apply Nat.ltb_lt in Hc; lia).
  assert (Hm : Ascii.eqb "-" c = false).
  { apply Ascii.eqb_neq. intros <-. by vm_compute in Hc. }
  assert (Hu : forall d, lacks c (NilZero.string_of_uint d) = true).
  { intros d. destruct d; try apply (lacks_uint c _ Hc').
    change (lacks c (String "0" EmptyString) = true). cbn [lacks].
    rewrite andb_true_r. apply negb_true_iff, Ascii.eqb_neq. intros <-.
    by vm_compute in Hc. }
  unfold pystr.of_Z, NilZero.string_of_int.
  destruct (Z.to_int z); [apply Hu|].
  cbn [lacks]. by rewrite Hm, Hu.
Qed.

Lemma lacks_append c a b : lacks c (a +:+ b) = lacks c a && lacks c b.
Proof.
  induction a as [|d a IH]; [done|].
  rewrite append_cons. cbn [lacks]. by rewrite IH, andb_assoc.
Qed.

Lemma size_table_text_lines (catalog : list (string * Z)) :
  Forall (fun e => lacks "010" e.1 = true /\ lacks "009" e.1 = true) catalog ->
  map (pystr.split "009") (pystr.split "010" (size_table_text catalog))
  = map (fun e => [e.1; pystr.of_Z e.2]) catalog ++ [[EmptyString]].
Proof.
  induction 1 as [|[name len] rest [Hn Ht] _ IH]; [reflexivity|].
  cbn [size_table_text map app]. unfold size_table_line, NL, TAB. cbn [fst snd] in *.
  rewrite !append_assoc.
  replace (name +:+ String "009" EmptyString +:+ pystr.of_Z len
           +:+ String "010" EmptyString +:+ size_table_text rest)
    with ((name +:+ String "009" (pystr.of_Z len))
          +:+ String "010" (size_table_text rest)).
  2:{ rewrite !append_assoc. reflexivity. }
  rewrite split_append_sep.
  2:{ rewrite lacks_append. cbn [lacks]. rewrite Hn. cbn.
      by apply lacks_of_Z. }
  cbn [map]. rewrite IH. f_equal.
  rewrite split_append_sep by done.
  by rewrite split_lacks by (by apply lacks_of_Z).
Qed.

(** X15. The size table reads back: when no reference name contains a
    tab or a newline, splitting the written file at newlines and each
    line at tabs gives, in order, the name and the decimal length of
    every reference, followed by the empty last line. *)
Theorem size_table_reads_back E s bam path chr_sizes s1 fp s2 :
  get_sizes_from_bam E bam s = (Ret chr_sizes, s1) ->
  open_wb E path s1 = (Ret fp, s2) ->
  Forall (fun e => lacks "010" e.1 = true /\ lacks "009" e.1 = true) chr_sizes ->
  exists content,
    fs (bam_to_sizes E bam path s).2 !! abspath E path = Some (File true content)
    /\ map (pystr.split "009") (pystr.split "010" content)
       = map (fun e => [e.1; pystr.of_Z e.2]) chr_sizes ++ [[EmptyString]].
Proof.
  intros Hg Ho Hn. exists (size_table_text chr_sizes).
  rewrite (bam_to_sizes_written _ _ _ _ _ _ _ _ Hg Ho). cbn [snd fs set_fs].
  split; [apply lookup_insert_eq | by apply size_table_text_lines].
Qed.

(** An instance. *)
Lemma main_stages_default_names_witness :
  let E := World.make World.healthy in
  let s2 := (main_stages E "sample.bam" None false false true false false
               (World.start [])).2 in
  "sample.wig" = (posixpath.splitext "sample.bam").1 +:+ ".wig"
  /\ "sample.sizes" = (posixpath.splitext "sample.bam").1 +:+ ".sizes"
  /\ spawned (events s2)
     = spawned (events (World.start []))
       ++ [["rsem-bam2wig"; "sample.bam"; "sample.wig";
            (posixpath.splitext "sample.bam").1; "--no-fractional-weight"]
           ++ [] ++ ["--ignore-qc-fail"] ++ [] ++ [];
           stage2_command "sample.wig" (resolved_output "sample.bam" None)
             "sample.sizes"].
Proof.
  cbv zeta.
  apply (main_stages_default_names (World.make World.healthy) "sample.bam" None
           false true false false (World.start [])).
  vm_compute. reflexivity.
Defined.

(** An instance. *)
Lemma size_table_reads_back_witness :
  let E := World.make World.healthy in
  exists content,
    fs (bam_to_sizes E "sample.bam" "sample.sizes" (World.start [])).2
      !! abspath E "sample.sizes" = Some (File true content)
    /\ map (pystr.split "009") (pystr.split "010" content)
       = map (fun e : string * Z => [e.1; pystr.of_Z e.2])
           [("chr1", 1000); ("chr2", 2000)] ++ [[EmptyString]].
Proof.
  cbv zeta.
  apply (size_table_reads_back (World.make World.healthy) (World.start [])
           "sample.bam" "sample.sizes" [("chr1", 1000); ("chr2", 2000)]
           (get_sizes_from_bam (World.make World.healthy) "sample.bam" (World.start [])).2
           "/work/sample.sizes"
           (open_wb (World.make World.healthy) "sample.sizes"
              (get_sizes_from_bam (World.make World.healthy) "sample.bam"
                 (World.start [])).2).2).
  - vm_compute. reflexivity.
  - vm_compute. reflexivity.
  - repeat constructor.
Defined.

#[local] Instance same_handles_preorder : PreOrder same_handles.
Proof. split; [by intros s | intros a b c H1 H2; unfold same_handles in *; congruence]. Qed.

Ltac prim_handles :=
  idtac;
  first [assumption
        | let s := fresh "s" in
          intros s; repeat autounfold with prims; unfold same_handles;
          repeat case_match; simplify_eq; simpl; done].

Lemma query_yes_no_handles q d : preserves same_handles (query_yes_no q d).
Proof.
  assert (Hl : forall p lines, preserves same_handles (query_loop q p d lines)).
  { intros p lines. induction lines as [|line rest IH]; cbn [query_loop];
      preserves_prog prim_handles. }
  unfold query_yes_no. preserves_prog ltac:(first [apply Hl | prim_handles]).
Qed.

Lemma bam_to_wig_handles E a b f1 f2 f3 f4 : preserves same_handles (bam_to_wig E a b f1 f2 f3 f4).
Proof. unfold bam_to_wig. preserves_prog prim_handles. Qed.

Lemma wig_to_bigwig_handles E a b c : preserves same_handles (wig_to_bigwig E a b c).
Proof. unfold wig_to_bigwig. preserves_prog prim_handles. Qed.

Ltac handles_fact H :=
  lazymatch type of H with
  | ?m ?s = (_, ?s') =>
      let Hp := fresh "Hh" in
      assert (Hp : preserves same_handles m)
        by (preserves_prog ltac:(first [apply query_yes_no_handles
                                       | apply bam_to_wig_handles
                                       | apply wig_to_bigwig_handles
                                       | prim_handles]));
      specialize (Hp s); rewrite H in Hp; unfold same_handles in Hp;
      cbn [snd] in Hp; clear H
  end.

Ltac chain_handles :=
  repeat match goal with
         | Hp : open_sam ?s' = _ |- context [open_sam ?s'] => rewrite Hp; clear Hp
         end.

Lemma indexed_bam_enter_opens E bam s h s' :
  indexed_bam_enter E bam s = (Ret h, s') ->
  open_sam s' = sam_path h :: open_sam s.
Proof.
  intros H. unfold indexed_bam_enter in H. repeat invert_bind H.
  unfold ret in H. injection H as <- <-.
  injection Hm3 as _ <-. cbn [open_sam set_open_sam].
  injection Hm2 as _ <-.
  handles_fact Hm. handles_fact Hm0.
  assert (Hh1 : open_sam s2 = open_sam s1).
  { destruct (negb a0).
    - destruct (pysam_index E bam (fs s1)) as [r f']. by injection Hm1 as _ <-.
    - by injection Hm1 as _ <-. }
  by rewrite Hh1, Hh0, Hh.
Qed.

Lemma get_sizes_from_bam_closes E bam s chr_sizes s' :
  get_sizes_from_bam E bam s = (Ret chr_sizes, s') -> open_sam s' = open_sam s.
Proof.
  intros H. unfold get_sizes_from_bam, indexed_bam, with_contextmanager in H.
  repeat invert_bind H.
  unfold ret in H. injection H as _ <-.
  apply indexed_bam_enter_opens in Hm. handles_fact Hm0.
  unfold indexed_bam_leave in Hm1. injection Hm1 as _ <-.
  cbn [open_sam set_open_sam]. rewrite Hh, Hm. apply remove_first_head.
Qed.

Lemma bam_to_sizes_closes E bam path s b s' :
  bam_to_sizes E bam path s = (Ret b, s') -> open_sam s' = open_sam s.
Proof.
  intros H. unfold bam_to_sizes in H. invert_bind H.
  apply get_sizes_from_bam_closes in Hm. handles_fact H. by rewrite Hh, Hm.
Qed.

(** X16. A run of [main] that returns normally leaves no alignment
    handle open: the open handles are those that were open before. *)
Theorem main_returns_with_handles_closed E bam bw t k f1 f2 f3 f4 s s' :
  main E bam bw t k f1 f2 f3 f4 s = (Ret tt, s') ->
  open_sam s' = open_sam s.
Proof.
  intros H. unfold main in H. invert_bind H.
  destruct a as [wig sizes]. handles_fact H.
  unfold main_stages in Hm. repeat invert_bind Hm.
  unfold ret in Hm. injection Hm as _ _ <-.
  repeat match goal with
         | Hx : _ _ = (Ret _, _) |- _ =>
             first [apply bam_to_sizes_closes in Hx | handles_fact Hx]
         end.
  chain_handles. reflexivity.
Qed.

(** An instance. *)
Lemma main_returns_with_handles_closed_witness :
  let E := World.make World.healthy in
  open_sam (main E "sample.bam" None false false false false false false
              (World.start [])).2
  = open_sam (World.start []).
Proof.
  cbv zeta.
  apply (main_returns_with_handles_closed (World.make World.healthy) "sample.bam" None
           false false false false false false (World.start [])).
  vm_compute. reflexivity.
Defined.
